(** * The benchmark driver of src/Python/run.py

    A shallow embedding of [run(init, code, name, argv)]: the driver that
    loads a corpus of patterns and sequences, encodes them as code points,
    calls a pluggable matcher on every (pattern, sequence) pair inside a
    timed region, checks the counts against an optional answer grid and
    prints a three-line report.

    Python values are modelled as follows: [int] is [Z]; [str] is a list of
    characters, each character being its Unicode code point; [float] is an
    IEEE 754 binary64 number ([spec_float] at precision 53); a list is a
    [list], indexed the way Python does it (negative indices count from the
    end, anything out of range raises IndexError).  Effects (collaborator
    calls, clock readings, printing, exceptions) are threaded through a
    state-and-exception monad whose state records every interaction in
    order. *)

From Stdlib Require Import String Ascii ZArith List Bool Lia.
From Stdlib Require Import DecimalString SpecFloat.
Import ListNotations.

Local Open Scope Z_scope.

(* ------------------------------------------------------------------ *)
(** ** Python strings and integers *)

(** A character of a Python [str]: [Chr cp] is [chr(cp)]. *)
Inductive char : Type := Chr (cp : N).

(** [ord(c)] *)
Definition ord (c : char) : Z :=
  match c with Chr cp => Z.of_N cp end.

Definition str : Type := list char.

(** A string literal of the source, character by character. *)
Definition lit (s : string) : str :=
  map (fun a => Chr (N_of_ascii a)) (list_ascii_of_string s).

(** The newline escape of a literal. *)
Definition nl : str := [Chr 10].

(** [str(n)] for an [int]: decimal digits, with a leading minus sign for a
    negative number. *)
Definition str_of_int (n : Z) : str := lit (NilZero.string_of_int (Z.to_int n)).

(** [len(l)] *)
Definition len {A} (l : list A) : Z := Z.of_nat (List.length l).

(** [range(n)] as the list it iterates over. *)
Definition range (n : Z) : list Z := map Z.of_nat (seq 0 (Z.to_nat n)).

(* ------------------------------------------------------------------ *)
(** ** Python floats and the [.6f] format *)

Definition float : Type := spec_float.

(** [x - y] on binary64. *)
Definition fsub (x y : float) : float := SFsub 53 1024 x y.

Definition is_finite (x : float) : bool :=
  match x with
  | S754_zero _ | S754_finite _ _ _ => true
  | S754_infinity _ | S754_nan => false
  end.

(** The integer nearest to [num / den] ([0 < den]), ties to even. *)
Definition round_half_even (num den : Z) : Z :=
  let q := num / den in
  let r := num mod den in
  match 2 * r ?= den with
  | Lt => q
  | Gt => q + 1
  | Eq => if Z.even q then q else q + 1
  end.

(** The absolute value of a finite float, times 10^6, rounded to an integer. *)
Definition micros (m : positive) (e : Z) : Z :=
  if 0 <=? e then Z.pos m * 2 ^ e * 10 ^ 6
  else round_half_even (Z.pos m * 10 ^ 6) (2 ^ (- e)).

Definition digit (d : Z) : char := Chr (Z.to_N (48 + d)).

(** The six digits of [r], for [0 <= r < 10^6], with leading zeros. *)
Definition frac6 (r : Z) : str :=
  map (fun k => digit ((r / 10 ^ k) mod 10)) [5; 4; 3; 2; 1; 0].

Definition fixed6 (sign : bool) (n : Z) : str :=
  (if sign then lit "-" else []) ++
  str_of_int (n / 10 ^ 6) ++ lit "." ++ frac6 (n mod 10 ^ 6).

(** [format(x, ".6f")]: the decimal expansion of [x] correctly rounded to
    six places; the sign bit is kept even when the digits are all zero. *)
Definition format_6f (x : float) : str :=
  match x with
  | S754_nan => lit "nan"
  | S754_infinity s => if s then lit "-inf" else lit "inf"
  | S754_zero s => fixed6 s 0
  | S754_finite s m e => fixed6 s (micros m e)
  end.

Definition is_digit (c : char) : bool :=
  match c with Chr cp => (48 <=? cp)%N && (cp <=? 57)%N end.

(** A character [str(n)] may contain: a digit or the minus sign. *)
Definition int_char (c : char) : bool :=
  match c with Chr cp => is_digit c || (cp =? 45)%N end.

(** [t] is an integer part, a point and exactly six digits. *)
Definition six_decimals (t : str) : Prop :=
  exists whole frac : str,
    t = whole ++ lit "." ++ frac /\
    forallb int_char whole = true /\
    List.length frac = 6%nat /\
    forallb is_digit frac = true.

(* ------------------------------------------------------------------ *)
(** ** Effects *)

(** The two output streams: [print] writes to [stdout] unless told
    [file=stderr]. *)
Inductive channel : Type := stdout | stderr.

Section Driver.

(** What a Loader call may raise, and the matcher's opaque handle. *)
Variable E : Type.
Variable PP : Type.

(** Everything the driver does that its surroundings can observe, with
    the values exchanged. *)
Inductive event : Type :=
| ReadSequences (source : str)
| ReadPatterns (source : str)
| ReadAnswers (source : str)
| PerfCounter (t : float)
| Init (pat : list Z)
| Code (pat_data : PP) (sequence : list Z) (matches : Z)
| Print (file : channel) (text : str).

(** The clock hands out its readings one after the other; [trace] is the
    log of interactions so far, oldest first. *)
Record world : Type := World {
  clock : nat -> float;
  ticks : nat;
  trace : list event
}.

Inductive exn : Type :=
| Exception (msg : str)
| IndexError
| LoaderError (e : E).

Inductive outcome (A : Type) : Type :=
| Return (a : A)
| Raise (e : exn).
Arguments Return {A} a.
Arguments Raise {A} e.

Definition M (A : Type) : Type := world -> outcome A * world.

Definition ret {A} (a : A) : M A := fun w => (Return a, w).

Definition raise {A} (e : exn) : M A := fun w => (Raise e, w).

Definition bind {A B} (m : M A) (k : A -> M B) : M B :=
  fun w =>
    match m w with
    | (Return a, w') => k a w'
    | (Raise e, w') => (Raise e, w')
    end.

Notation "x <- m ;; k" := (bind m (fun x => k))
  (at level 61, m at next level, right associativity).
Notation "m ;;; k" := (bind m (fun _ => k))
  (at level 61, right associativity).

Definition log (w : world) (evs : list event) : world :=
  World (clock w) (ticks w) (trace w ++ evs).

Definition emit (ev : event) : M unit := fun w => (Return tt, log w [ev]).

(** [l[i]] *)
Definition getitem {A} (l : list A) (i : Z) : M A :=
  let j := if i <? 0 then i + len l else i in
  if j <? 0 then raise IndexError
  else match nth_error l (Z.to_nat j) with
       | Some x => ret x
       | None => raise IndexError
       end.

(** [for x in xs: body], the variables the body assigns passed along. *)
Fixpoint for_each {A S} (xs : list A) (body : A -> S -> M S) (s : S) : M S :=
  match xs with
  | [] => ret s
  | x :: xs' => s' <- body x s ;; for_each xs' body s'
  end.

Fixpoint join (sep : str) (args : list str) : str :=
  match args with
  | [] => []
  | [a] => a
  | a :: rest => a ++ sep ++ join sep rest
  end.

(** [print(a, b, ..., file=file)] *)
Definition print (args : list str) (file : channel) : M unit :=
  emit (Print file (join (lit " ") args ++ nl)).

(** [perf_counter()] *)
Definition perf_counter : M float :=
  fun w =>
    let t := clock w (ticks w) in
    (Return t, World (clock w) (S (ticks w)) (trace w ++ [PerfCounter t])).

(** The Corpus Loader, imported from the [setup] module: for a source it
    delivers the data or raises. *)
Variable read_sequences : str -> E + list str.
Variable read_patterns : str -> E + list str.
Variable read_answers : str -> E + list (list Z).

Definition call_loader {A} (ev : event) (r : E + A) : M A :=
  emit ev ;;;
  match r with
  | inr a => ret a
  | inl e => raise (LoaderError e)
  end.

(** The Matcher, handed to [run] as [init] and [code]: by its contract
    both are pure functions of their arguments. *)
Variable init : list Z -> PP.
Variable code : PP -> list Z -> Z.

Definition call_init (pat : list Z) : M PP :=
  emit (Init pat) ;;; ret (init pat).

Definition call_code (pat_data : PP) (sequence : list Z) : M Z :=
  let matches := code pat_data sequence in
  emit (Code pat_data sequence matches) ;;; ret matches.

(* ---------------------------------------------------------------- *)
(** ** The driver *)

(** [list(map(ord, s))] *)
Definition encode (s : str) : list Z := map ord s.

Definition usage (prog : str) : str :=
  lit "Usage: " ++ prog ++ lit " sequences patterns <answers>".

Definition count_mismatch : str :=
  lit "Count mismatch between patterns file and answers file".

Definition mismatch_line (pattern sequence matches expected : Z) : list str :=
  [ lit "Pattern " ++ str_of_int (pattern + 1) ++
    lit " mismatch against sequence";
    str_of_int (sequence + 1) ++ lit " (" ++ str_of_int matches ++ lit " !=";
    str_of_int expected ++ lit ")" ].

Definition report (name : str) (elapsed : float) : str :=
  lit "language: python" ++ nl ++ lit "algorithm: " ++ name ++ nl ++
  lit "runtime: " ++ format_6f elapsed.

(** The body of the inner loop, lines 34-46. *)
Definition pair_body (answers_data : option (list (list Z)))
    (pattern : Z) (pat_data : PP) (sequences_data : list (list Z))
    (sequence : Z) (return_code : Z) : M Z :=
  seq <- getitem sequences_data sequence ;;
  matches <- call_code pat_data seq ;;
  match answers_data with
  | Some answers =>
      row <- getitem answers pattern ;;
      expected <- getitem row sequence ;;
      if negb (matches =? expected) then
        row' <- getitem answers pattern ;;
        expected' <- getitem row' sequence ;;
        print (mismatch_line pattern sequence matches expected') stderr ;;;
        ret (return_code + 1)
      else ret return_code
  | None => ret return_code
  end.

(** The body of the outer loop, lines 30-46. *)
Definition pattern_body (answers_data : option (list (list Z)))
    (patterns_data sequences_data : list (list Z))
    (pattern : Z) (return_code : Z) : M Z :=
  pat <- getitem patterns_data pattern ;;
  pat_data <- call_init pat ;;
  for_each (range (len sequences_data))
    (pair_body answers_data pattern pat_data sequences_data) return_code.

Definition run (name : str) (argv : list str) : M Z :=
  if (len argv <? 3) || (len argv >? 4) then
    prog <- getitem argv 0 ;;
    raise (Exception (usage prog))
  else
    arg1 <- getitem argv 1 ;;
    sequences_data <- call_loader (ReadSequences arg1) (read_sequences arg1) ;;
    arg2 <- getitem argv 2 ;;
    patterns_data <- call_loader (ReadPatterns arg2) (read_patterns arg2) ;;
    answers_data <-
      (if len argv =? 4 then
         arg3 <- getitem argv 3 ;;
         answers_data <- call_loader (ReadAnswers arg3) (read_answers arg3) ;;
         if negb (len answers_data =? len patterns_data) then
           raise (Exception count_mismatch)
         else ret (Some answers_data)
       else ret None) ;;
    start_time <- perf_counter ;;
    let return_code := 0 in
    let patterns_data := map encode patterns_data in
    let sequences_data := map encode sequences_data in
    return_code <-
      for_each (range (len patterns_data))
        (pattern_body answers_data patterns_data sequences_data)
        return_code ;;
    end_time <- perf_counter ;;
    let elapsed := fsub end_time start_time in
    print [report name elapsed] stdout ;;;
    ret return_code.

(* ---------------------------------------------------------------- *)
(** ** What a run is expected to do, as plain functions of the corpus *)

(** The count the matcher gives for pattern [p] against sequence [s],
    both 0-based positions in the loaded corpus. *)
Definition match_count (patterns sequences : list str) (p s : nat) : Z :=
  code (init (encode (nth p patterns []))) (encode (nth s sequences [])).

(** The cell of the answer grid for that pair. *)
Definition answer (answers : list (list Z)) (p s : nat) : Z :=
  nth s (nth p answers []) 0.

Definition mismatch (answers_data : option (list (list Z)))
    (patterns sequences : list str) (ps : nat * nat) : bool :=
  match answers_data with
  | Some answers =>
      negb (match_count patterns sequences (fst ps) (snd ps)
            =? answer answers (fst ps) (snd ps))
  | None => false
  end.

(** All pairs, pattern-major. *)
Definition pairs (P S : nat) : list (nat * nat) :=
  list_prod (seq 0 P) (seq 0 S).

(** The diagnostic line for the pair numbered [p], [s] counting from 1. *)
Definition diagnostic (p s : Z) (actual expected : Z) : str :=
  lit "Pattern " ++ str_of_int p ++ lit " mismatch against sequence " ++
  str_of_int s ++ lit " (" ++ str_of_int actual ++ lit " != " ++
  str_of_int expected ++ lit ")" ++ nl.

Definition diagnostic_of (answers : list (list Z))
    (patterns sequences : list str) (ps : nat * nat) : str :=
  diagnostic (Z.of_nat (fst ps) + 1) (Z.of_nat (snd ps) + 1)
    (match_count patterns sequences (fst ps) (snd ps))
    (answer answers (fst ps) (snd ps)).

Definition code_event (patterns sequences : list str) (p s : nat) : event :=
  Code (init (encode (nth p patterns []))) (encode (nth s sequences []))
       (match_count patterns sequences p s).

(** The events of one pass through the inner loop body. *)
Definition pair_events (answers_data : option (list (list Z)))
    (patterns sequences : list str) (p s : nat) : list event :=
  code_event patterns sequences p s ::
  match answers_data with
  | Some answers =>
      if mismatch answers_data patterns sequences (p, s)
      then [Print stderr (diagnostic_of answers patterns sequences (p, s))]
      else []
  | None => []
  end.

(** The events of one pass through the outer loop body. *)
Definition pattern_events (answers_data : option (list (list Z)))
    (patterns sequences : list str) (p : nat) : list event :=
  Init (encode (nth p patterns [])) ::
  flat_map (pair_events answers_data patterns sequences p)
           (seq 0 (List.length sequences)).

(** The matcher calls of a whole run: pattern-major, sequence-minor,
    ascending. *)
Definition expected_calls (patterns sequences : list str) : list event :=
  flat_map
    (fun p => Init (encode (nth p patterns [])) ::
              map (code_event patterns sequences p)
                  (seq 0 (List.length sequences)))
    (seq 0 (List.length patterns)).

(** The input phase of [run] goes through on [argv] and leaves these
    data: the argument count is right, the Loader delivers, and the
    answer grid, when asked for, has one row per pattern. *)
Definition loads (argv : list str) (sequences patterns : list str)
    (answers_data : option (list (list Z))) : Prop :=
  match argv, answers_data with
  | [_; arg1; arg2], None =>
      read_sequences arg1 = inr sequences /\
      read_patterns arg2 = inr patterns
  | [_; arg1; arg2; arg3], Some answers =>
      read_sequences arg1 = inr sequences /\
      read_patterns arg2 = inr patterns /\
      read_answers arg3 = inr answers /\
      List.length answers = List.length patterns
  | _, _ => False
  end.

(** The grid has a cell for pattern [p] and sequence [s]. *)
Definition has_cell (answers_data : option (list (list Z))) (p s : nat)
  : Prop :=
  match answers_data with
  | Some answers =>
      (p < List.length answers)%nat /\
      (s < List.length (nth p answers []))%nat
  | None => True
  end.

(** Every row of the grid, when there is one, has a cell for every
    sequence. *)
Definition covers (answers_data : option (list (list Z)))
    (sequences : list str) : Prop :=
  match answers_data with
  | Some answers =>
      Forall (fun row => (List.length sequences <= List.length row)%nat)
             answers
  | None => True
  end.

(** The Loader calls of the input phase. *)
Definition loader_events (argv : list str) : list event :=
  match argv with
  | _ :: arg1 :: arg2 :: rest =>
      ReadSequences arg1 :: ReadPatterns arg2 ::
      match rest with
      | arg3 :: _ => [ReadAnswers arg3]
      | [] => []
      end
  | _ => []
  end.

(** How the input phase ends: with the corpus, or with an exception. *)
Inductive loaded : Type :=
| Loaded (sequences patterns : list str)
         (answers_data : option (list (list Z)))
| Failed (e : exn).

(** The input phase of [run] for an argument count that passes the first
    check, as a function: the Loader calls made and how the phase ends. *)
Definition input_phase (arg1 arg2 : str) (rest : list str)
  : list event * loaded :=
  match read_sequences arg1 with
  | inl e => ([ReadSequences arg1], Failed (LoaderError e))
  | inr sequences =>
      match read_patterns arg2 with
      | inl e =>
          ([ReadSequences arg1; ReadPatterns arg2], Failed (LoaderError e))
      | inr patterns =>
          match rest with
          | [] => ([ReadSequences arg1; ReadPatterns arg2],
                   Loaded sequences patterns None)
          | arg3 :: _ =>
              ([ReadSequences arg1; ReadPatterns arg2; ReadAnswers arg3],
               match read_answers arg3 with
               | inl e => Failed (LoaderError e)
               | inr answers =>
                   if negb (len answers =? len patterns)
                   then Failed (Exception count_mismatch)
                   else Loaded sequences patterns (Some answers)
               end)
          end
      end
  end.

(** The part of [run] between the two clock readings, with the report. *)
Definition timed_region (name : str)
    (answers_data : option (list (list Z)))
    (patterns_data sequences_data : list str) : M Z :=
  start_time <- perf_counter ;;
  let return_code := 0 in
  let patterns_data := map encode patterns_data in
  let sequences_data := map encode sequences_data in
  return_code <-
    for_each (range (len patterns_data))
      (pattern_body answers_data patterns_data sequences_data)
      return_code ;;
  end_time <- perf_counter ;;
  let elapsed := fsub end_time start_time in
  print [report name elapsed] stdout ;;;
  ret return_code.

(** Events the two loops may produce. *)
Definition loop_event (ev : event) : bool :=
  match ev with
  | Init _ | Code _ _ _ | Print stderr _ => true
  | _ => false
  end.

Definition is_matcher_call (ev : event) : bool :=
  match ev with
  | Init _ | Code _ _ _ => true
  | _ => false
  end.

Definition matcher_calls (tr : list event) : list event :=
  filter is_matcher_call tr.

(** The text written to one stream, one entry per [print]. *)
Definition printed (file : channel) (tr : list event) : list str :=
  flat_map
    (fun ev =>
       match ev, file with
       | Print stdout text, stdout => [text]
       | Print stderr text, stderr => [text]
       | _, _ => []
       end) tr.

(** A trace without what depends on the clock: its readings and the
    report that quotes the elapsed time. *)
Definition untimed (tr : list event) : list event :=
  filter
    (fun ev =>
       match ev with
       | PerfCounter _ | Print stdout _ => false
       | _ => true
       end) tr.

(** A computation of the kind the loops are made of: whatever the world
    it starts in, it ends the same way, fails with IndexError if it fails,
    and adds the same events, none but matcher calls and diagnostics. *)
Definition loop_like {A} (m : M A) : Prop :=
  exists (o : outcome A) (evs : list event),
    (forall e, o = Raise e -> e = IndexError) /\
    forallb loop_event evs = true /\
    forall w, m w = (o, log w evs).

(** The events a computation adds to the trace when started in [w]. *)
Definition events_of {A} (m : M A) (w : world) : list event :=
  skipn (List.length (trace w)) (trace (snd (m w))).

End Driver.

Arguments World {PP} clock ticks trace.
Arguments clock {PP} w _.
Arguments ticks {PP} w.
Arguments trace {PP} w.
Arguments ReadSequences {PP} source.
Arguments ReadPatterns {PP} source.
Arguments ReadAnswers {PP} source.
Arguments PerfCounter {PP} t.
Arguments Init {PP} pat.
Arguments Code {PP} pat_data sequence matches.
Arguments Print {PP} file text.
Arguments Exception {E} msg.
Arguments IndexError {E}.
Arguments LoaderError {E} e.
Arguments Return {E A} a.
Arguments Raise {E A} e.
Arguments ret {E PP A} a _.
Arguments raise {E PP A} e _.
Arguments bind {E PP A B} m k _.
Arguments log {PP} w evs.
Arguments emit {E PP} ev _.
Arguments getitem {E PP A} l i _.
Arguments for_each {E PP A S} xs body s _.
Arguments print {E PP} args file _.
Arguments perf_counter {E PP} _.
Arguments call_loader {E PP A} ev r _.
Arguments call_init {E PP} init pat _.
Arguments call_code {E PP} code pat_data sequence _.
Arguments pair_body {E PP} code answers_data pattern pat_data sequences_data
  sequence return_code _.
Arguments pattern_body {E PP} init code answers_data patterns_data
  sequences_data pattern return_code _.
Arguments run {E PP} read_sequences read_patterns read_answers init code
  name argv _.
Arguments timed_region {E PP} init code name answers_data patterns_data
  sequences_data _.
Arguments loads {E} read_sequences read_patterns read_answers argv sequences
  patterns answers_data.
Arguments loader_events {PP} argv.
Arguments Loaded {E} sequences patterns answers_data.
Arguments Failed {E} e.
Arguments input_phase {E PP} read_sequences read_patterns read_answers arg1
  arg2 rest.
Arguments loop_like {E PP A} m.
Arguments match_count {PP} init code patterns sequences p s.
Arguments mismatch {PP} init code answers_data patterns sequences ps.
Arguments diagnostic_of {PP} init code answers patterns sequences ps.
Arguments code_event {PP} init code patterns sequences p s.
Arguments pair_events {PP} init code answers_data patterns sequences p s.
Arguments pattern_events {PP} init code answers_data patterns sequences p.
Arguments expected_calls {PP} init code patterns sequences.
Arguments loop_event {PP} ev.
Arguments is_matcher_call {PP} ev.
Arguments matcher_calls {PP} tr.
Arguments printed {PP} file tr.
Arguments untimed {PP} tr.
Arguments events_of {E PP A} m w.

(* ------------------------------------------------------------------ *)
(** ** Sample corpora and matchers *)

Module Scenario.

(** What the sample loader raises for a source it does not know. *)
Inductive load_error : Type := NoSuchFile (source : str).

Definition char_eqb (a b : char) : bool :=
  match a, b with Chr x, Chr y => N.eqb x y end.

Fixpoint str_eqb (a b : str) : bool :=
  match a, b with
  | [], [] => true
  | x :: a', y :: b' => char_eqb x y && str_eqb a' b'
  | _, _ => false
  end.

(** A loader over an in-memory table of sources. *)
Definition lookup {A} (table : list (str * A)) (source : str)
  : load_error + A :=
  match find (fun entry => str_eqb (fst entry) source) table with
  | Some entry => inr (snd entry)
  | None => inl (NoSuchFile source)
  end.

Definition sequence_files : list (str * list str) :=
  [ (lit "seq_a", [lit "abab"]);
    (lit "seq_b", [lit "aa"; lit "bb"]) ].

Definition pattern_files : list (str * list str) :=
  [ (lit "pat_a", [lit "ab"]);
    (lit "pat_b", [lit "a"; lit "b"]) ].

Definition answer_files : list (str * list (list Z)) :=
  [ (lit "ans_b", [[2; 0]; [0; 2]]);
    (lit "ans_short", [[2; 0]]);
    (lit "ans_ragged", [[2]; [0; 2]]) ].

Definition read_sequences := lookup sequence_files.
Definition read_patterns := lookup pattern_files.
Definition read_answers := lookup answer_files.

(** A matcher that keeps the pattern as its handle and counts the
    positions of the sequence at which the pattern starts. *)
Fixpoint starts_with (pat s : list Z) : bool :=
  match pat, s with
  | [], _ => true
  | x :: pat', y :: s' => (x =? y) && starts_with pat' s'
  | _ :: _, [] => false
  end.

Fixpoint occurrences (pat s : list Z) : Z :=
  match s with
  | [] => 0
  | _ :: s' => (if starts_with pat s then 1 else 0) + occurrences pat s'
  end.

Definition init (pat : list Z) : list Z := pat.
Definition code (pat_data s : list Z) : Z := occurrences pat_data s.

(** A matcher that is wrong about pattern [a] in sequence [aa]. *)
Definition faulty_code (pat_data s : list Z) : Z :=
  if starts_with [97; 97] s && starts_with pat_data [97] then 1
  else occurrences pat_data s.

(** A clock that reads 1.5 s and then 1.75 s. *)
Definition clock (k : nat) : float :=
  match k with
  | O => S754_finite false 3 (-1)
  | _ => S754_finite false 7 (-2)
  end.

Definition start : world (list Z) := World clock 0 [].

Definition argv (args : list string) : list str := map lit args.

(** Scenario A: one pattern, one sequence, no answers. *)
Definition sequences_a : list str := [lit "abab"].
Definition patterns_a : list str := [lit "ab"].
Definition argv_a : list str := argv ["run.py"; "seq_a"; "pat_a"]%string.

(** Scenarios B and C: two patterns, two sequences, a full answer grid. *)
Definition sequences_b : list str := [lit "aa"; lit "bb"].
Definition patterns_b : list str := [lit "a"; lit "b"].
Definition answers_b : list (list Z) := [[2; 0]; [0; 2]].
Definition argv_b : list str :=
  argv ["run.py"; "seq_b"; "pat_b"; "ans_b"]%string.

(** The same corpus with a grid of one row, and with a grid whose first
    row has one cell. *)
Definition answers_short : list (list Z) := [[2; 0]].
Definition argv_short : list str :=
  argv ["run.py"; "seq_b"; "pat_b"; "ans_short"]%string.
Definition answers_ragged : list (list Z) := [[2]; [0; 2]].
Definition argv_ragged : list str :=
  argv ["run.py"; "seq_b"; "pat_b"; "ans_ragged"]%string.

(** [run] over the sample Loader, with the pattern as handle. *)
Definition run_with (code : list Z -> list Z -> Z) (args : list str)
  : M load_error (list Z) Z :=
  run read_sequences read_patterns read_answers init code (lit "naive")
    args.

Definition loads_with (args : list str) (sequences patterns : list str)
    (answers_data : option (list (list Z))) : Prop :=
  loads read_sequences read_patterns read_answers args sequences patterns
    answers_data.

End Scenario.

(* ------------------------------------------------------------------ *)
(** ** Further corpora: empty, split, wide and partly missing grids *)

Module Corpora.

Definition sequence_files : list (str * list str) :=
  [ (lit "seq_b", [lit "aa"; lit "bb"]);
    (lit "seq_none", []) ].

Definition pattern_files : list (str * list str) :=
  [ (lit "pat_b", [lit "a"; lit "b"]);
    (lit "pat_first", [lit "a"]);
    (lit "pat_second", [lit "b"]);
    (lit "pat_none", []) ].

Definition answer_files : list (str * list (list Z)) :=
  [ (lit "ans_b", [[2; 0]; [0; 2]]);
    (lit "ans_wide", [[2; 0; 7]; [0; 2; 9; 9]]);
    (lit "ans_first", [[2; 0]]);
    (lit "ans_second", [[0; 2]]);
    (lit "ans_late", [[2; 0]; [0]]);
    (lit "ans_any", [[5]; []]) ].

Definition read_sequences := Scenario.lookup sequence_files.
Definition read_patterns := Scenario.lookup pattern_files.
Definition read_answers := Scenario.lookup answer_files.

(** [run] over these sources, with the pattern as handle. *)
Definition run_with (code : list Z -> list Z -> Z) (args : list string)
  : M Scenario.load_error (list Z) Z :=
  run read_sequences read_patterns read_answers Scenario.init code
    (lit "naive") (Scenario.argv args).

Definition loads_with (args : list string) (sequences patterns : list str)
    (answers_data : option (list (list Z))) : Prop :=
  loads read_sequences read_patterns read_answers (Scenario.argv args)
    sequences patterns answers_data.

End Corpora.

(* ------------------------------------------------------------------ *)
(** ** Facts about the monad and about indexing *)

Section Facts.

Context {E PP : Type}.
Variables read_sequences read_patterns : str -> E + list str.
Variable read_answers : str -> E + list (list Z).
Variable init : list Z -> PP.
Variable code : PP -> list Z -> Z.

Implicit Types (w : world PP) (evs : list (event PP)).

Lemma log_nil w : log w [] = w.
Proof. destruct w; unfold log; simpl. now rewrite app_nil_r. Qed.

Lemma log_log w evs evs' : log (log w evs) evs' = log w (evs ++ evs').
Proof. unfold log; simpl. now rewrite app_assoc. Qed.

Lemma bind_Return {A B} (m : M E PP A) (k : A -> M E PP B) w a w' :
  m w = (Return a, w') -> bind m k w = k a w'.
Proof. intros H. unfold bind. now rewrite H. Qed.

Lemma bind_Raise {A B} (m : M E PP A) (k : A -> M E PP B) w e w' :
  m w = (Raise e, w') -> bind m k w = (Raise e, w').
Proof. intros H. unfold bind. now rewrite H. Qed.

Lemma getitem_nth {A} (l : list A) (k : nat) (x : A) w :
  nth_error l k = Some x ->
  getitem (E := E) l (Z.of_nat k) w = (Return x, w).
Proof.
  intros H. unfold getitem.
  destruct (Z.ltb_spec (Z.of_nat k) 0) as [Hneg | _]; [lia |].
  destruct (Z.ltb_spec (Z.of_nat k) 0) as [Hneg | _]; [lia |].
  now rewrite Nat2Z.id, H.
Qed.

Lemma getitem_past {A} (l : list A) (k : nat) w :
  (List.length l <= k)%nat ->
  getitem (E := E) l (Z.of_nat k) w = (Raise IndexError, w).
Proof.
  intros H. unfold getitem.
  destruct (Z.ltb_spec (Z.of_nat k) 0) as [Hneg | _]; [lia |].
  destruct (Z.ltb_spec (Z.of_nat k) 0) as [Hneg | _]; [lia |].
  rewrite Nat2Z.id.
  now rewrite (proj2 (nth_error_None l k) H).
Qed.

Lemma getitem_nth_default {A} (l : list A) (k : nat) (d : A) w :
  (k < List.length l)%nat ->
  getitem (E := E) l (Z.of_nat k) w = (Return (nth k l d), w).
Proof.
  intros H. apply getitem_nth. now apply nth_error_nth'.
Qed.

Lemma range_len {A} (l : list A) :
  range (len l) = map Z.of_nat (seq 0 (List.length l)).
Proof. unfold range, len. now rewrite Nat2Z.id. Qed.

Lemma len_map {A B} (f : A -> B) (l : list A) : len (map f l) = len l.
Proof. unfold len. now rewrite length_map. Qed.

Lemma nth_encode (l : list str) (k : nat) :
  nth k (map encode l) [] = encode (nth k l []).
Proof. exact (map_nth encode l [] k). Qed.

(** The three arguments of the diagnostic [print], joined by blanks and
    ended by a newline, are the diagnostic line. *)
Lemma mismatch_line_text (pattern sequence matches expected : Z) :
  join (lit " ") (mismatch_line pattern sequence matches expected) ++ nl
  = diagnostic (pattern + 1) (sequence + 1) matches expected.
Proof.
  unfold mismatch_line, diagnostic, join.
  repeat rewrite <- app_assoc. reflexivity.
Qed.

(* ---------------------------------------------------------------- *)
(** ** The two loops on a grid that has every cell *)

Lemma pair_body_ok answers_data patterns sequences p s rc w :
  (s < List.length sequences)%nat ->
  has_cell answers_data p s ->
  pair_body (E := E) code answers_data (Z.of_nat p)
    (init (encode (nth p patterns []))) (map encode sequences)
    (Z.of_nat s) rc w
  = (Return
       (rc + if mismatch init code answers_data patterns sequences (p, s)
             then 1 else 0),
     log w (pair_events init code answers_data patterns sequences p s)).
Proof.
  intros Hs Hcell. unfold pair_body.
  rewrite (bind_Return _ _ _ _ _
             (getitem_nth_default (map encode sequences) s [] w
                ltac:(now rewrite length_map))).
  rewrite nth_encode.
  unfold call_code, emit, bind at 1 2; simpl.
  destruct answers_data as [answers |]; simpl in *.
  - destruct Hcell as [Hp Hrow].
    rewrite (bind_Return _ _ _ _ _
               (getitem_nth_default answers p [] _ Hp)).
    rewrite (bind_Return _ _ _ _ _
               (getitem_nth_default (nth p answers []) s 0 _ Hrow)).
    unfold pair_events, mismatch, match_count, answer, code_event; simpl.
    destruct (_ =? _); simpl.
    + now rewrite Z.add_0_r.
    + rewrite (bind_Return _ _ _ _ _
                 (getitem_nth_default answers p [] _ Hp)).
      rewrite (bind_Return _ _ _ _ _
                 (getitem_nth_default (nth p answers []) s 0 _ Hrow)).
      cbv [print emit bind ret].
      rewrite mismatch_line_text, log_log. reflexivity.
  - unfold ret. now rewrite Z.add_0_r.
Qed.

Lemma inner_loop_ok answers_data patterns sequences p ss : forall rc w,
  Forall (fun s => (s < List.length sequences)%nat /\
                   has_cell answers_data p s) ss ->
  for_each (E := E) (map Z.of_nat ss)
    (pair_body code answers_data (Z.of_nat p)
       (init (encode (nth p patterns []))) (map encode sequences)) rc w
  = (Return
       (rc + Z.of_nat (List.length
               (filter (fun s => mismatch init code answers_data
                                   patterns sequences (p, s)) ss))),
     log w (flat_map (pair_events init code answers_data patterns
                        sequences p) ss)).
Proof.
  induction ss as [| s ss IH]; intros rc w Hall.
  - simpl. unfold ret. now rewrite Z.add_0_r, log_nil.
  - inversion Hall as [| ? ? [Hs Hcell] Hrest]; subst.
    cbn [map for_each].
    rewrite (bind_Return _ _ _ _ _
               (pair_body_ok answers_data patterns sequences p s rc w
                  Hs Hcell)).
    rewrite IH by assumption.
    cbn [filter flat_map]. rewrite log_log. f_equal. f_equal.
    destruct (mismatch _ _ _ _ _ _); cbn [List.length]; lia.
Qed.

Lemma length_filter_pairs {A B} (f : A * B -> bool) (a : A) (l : list B) :
  List.length (filter f (map (fun b => (a, b)) l))
  = List.length (filter (fun b => f (a, b)) l).
Proof.
  induction l as [| b l IH]; [reflexivity |].
  cbn [map filter]. destruct (f (a, b)); cbn [List.length]; now rewrite IH.
Qed.

Lemma pattern_body_ok answers_data patterns sequences p rc w :
  (p < List.length patterns)%nat ->
  (forall s, (s < List.length sequences)%nat ->
             has_cell answers_data p s) ->
  pattern_body (E := E) init code answers_data (map encode patterns)
    (map encode sequences) (Z.of_nat p) rc w
  = (Return
       (rc + Z.of_nat (List.length
               (filter (fun s => mismatch init code answers_data
                                   patterns sequences (p, s))
                       (seq 0 (List.length sequences))))),
     log w (pattern_events init code answers_data patterns sequences p)).
Proof.
  intros Hp Hcells. unfold pattern_body.
  rewrite (bind_Return _ _ _ _ _
             (getitem_nth_default (map encode patterns) p [] w
                ltac:(now rewrite length_map))).
  rewrite nth_encode.
  cbv [call_init emit bind ret].
  rewrite range_len, length_map, inner_loop_ok.
  - rewrite log_log. reflexivity.
  - apply Forall_forall. intros s Hin. apply in_seq in Hin.
    split; [lia | apply Hcells; lia].
Qed.

Lemma outer_loop_ok answers_data patterns sequences ps : forall rc w,
  Forall (fun p => (p < List.length patterns)%nat /\
                   forall s, (s < List.length sequences)%nat ->
                             has_cell answers_data p s) ps ->
  for_each (E := E) (map Z.of_nat ps)
    (pattern_body init code answers_data (map encode patterns)
       (map encode sequences)) rc w
  = (Return
       (rc + Z.of_nat (List.length
               (filter (mismatch init code answers_data patterns sequences)
                       (list_prod ps (seq 0 (List.length sequences)))))),
     log w (flat_map (pattern_events init code answers_data patterns
                        sequences) ps)).
Proof.
  induction ps as [| p ps IH]; intros rc w Hall.
  - simpl. unfold ret. now rewrite Z.add_0_r, log_nil.
  - inversion Hall as [| ? ? [Hp Hcells] Hrest]; subst.
    cbn [map for_each].
    rewrite (bind_Return _ _ _ _ _
               (pattern_body_ok answers_data patterns sequences p rc w
                  Hp Hcells)).
    rewrite IH by assumption.
    cbn [list_prod flat_map].
    rewrite log_log, filter_app, length_app, length_filter_pairs.
    f_equal. f_equal. lia.
Qed.

Lemma covers_has_cell argv answers_data patterns sequences p s :
  loads read_sequences read_patterns read_answers argv sequences patterns
    answers_data ->
  covers answers_data sequences ->
  (p < List.length patterns)%nat -> (s < List.length sequences)%nat ->
  has_cell answers_data p s.
Proof.
  intros Hloads Hcov Hp Hs.
  destruct answers_data as [answers |]; [| exact I].
  assert (Hlen : List.length answers = List.length patterns).
  { unfold loads in Hloads.
    destruct argv as [| ? [| ? [| ? [| ? [| ? ?]]]]]; try contradiction;
      tauto. }
  cbn [has_cell covers] in *.
  assert (Hp' : (p < List.length answers)%nat) by lia.
  split; [exact Hp' |].
  rewrite Forall_forall in Hcov.
  specialize (Hcov (nth p answers []) (nth_In answers [] Hp')).
  lia.
Qed.

(* ---------------------------------------------------------------- *)
(** ** The input phase *)

Lemma call_loader_ok {A} (ev : event PP) (r : E + A) (a : A) w :
  r = inr a -> call_loader ev r w = (Return a, log w [ev]).
Proof. intros ->. reflexivity. Qed.

Lemma call_loader_fail {A} (ev : event PP) (r : E + A) (e : E) w :
  r = inl e -> call_loader ev r w = (Raise (LoaderError e), log w [ev]).
Proof. intros ->. reflexivity. Qed.

Local Abbreviation run' :=
  (run read_sequences read_patterns read_answers init code).
Local Abbreviation loads' := (loads read_sequences read_patterns read_answers).

(** Once the input phase has gone through, what is left of [run] is the
    timed region. *)
Lemma run_loads name argv sequences patterns answers_data w :
  loads' argv sequences patterns answers_data ->
  run' name argv w
  = timed_region init code name answers_data patterns sequences
      (log w (loader_events argv)).
Proof.
  unfold loads. intros Hloads.
  destruct argv as [| prog [| arg1 [| arg2 [| arg3 [| ? ?]]]]];
    try contradiction;
    destruct answers_data as [answers |]; try contradiction.
  - destruct Hloads as [Hseq Hpat].
    unfold run.
    change ((len [prog; arg1; arg2] <? 3) || (len [prog; arg1; arg2] >? 4))
      with false.
    cbv iota.
    rewrite (bind_Return _ _ w arg1 w) by reflexivity.
    rewrite (bind_Return _ _ _ _ _ (call_loader_ok _ _ _ _ Hseq)).
    rewrite (bind_Return _ _ _ arg2 _) by reflexivity.
    rewrite (bind_Return _ _ _ _ _ (call_loader_ok _ _ _ _ Hpat)).
    rewrite log_log. reflexivity.
  - destruct Hloads as (Hseq & Hpat & Hans & Hrows).
    unfold run.
    change ((len [prog; arg1; arg2; arg3] <? 3)
            || (len [prog; arg1; arg2; arg3] >? 4)) with false.
    cbv iota.
    rewrite (bind_Return _ _ w arg1 w) by reflexivity.
    rewrite (bind_Return _ _ _ _ _ (call_loader_ok _ _ _ _ Hseq)).
    rewrite (bind_Return _ _ _ arg2 _) by reflexivity.
    rewrite (bind_Return _ _ _ _ _ (call_loader_ok _ _ _ _ Hpat)).
    change (len [prog; arg1; arg2; arg3] =? 4) with true. cbv iota.
    rewrite (bind_Return _ _ _ (Some answers)
               (log w [ReadSequences arg1; ReadPatterns arg2;
                       ReadAnswers arg3])).
    + reflexivity.
    + rewrite (bind_Return _ _ _ arg3 _) by reflexivity.
      rewrite (bind_Return _ _ _ _ _ (call_loader_ok _ _ _ _ Hans)).
      unfold len. rewrite Hrows, Z.eqb_refl, !log_log. reflexivity.
Qed.

(** The timed region on a grid that has every cell. *)
Lemma timed_region_ok name answers_data patterns sequences w :
  (forall p s, (p < List.length patterns)%nat ->
               (s < List.length sequences)%nat ->
               has_cell answers_data p s) ->
  timed_region (E := E) init code name answers_data patterns sequences w
  = (Return
       (Z.of_nat (List.length
          (filter (mismatch init code answers_data patterns sequences)
                  (pairs (List.length patterns) (List.length sequences))))),
     World (clock w) (S (S (ticks w)))
       (trace w ++
        PerfCounter (clock w (ticks w)) ::
        flat_map (pattern_events init code answers_data patterns sequences)
                 (seq 0 (List.length patterns)) ++
        [PerfCounter (clock w (S (ticks w)));
         Print stdout
           (report name (fsub (clock w (S (ticks w))) (clock w (ticks w)))
            ++ nl)])).
Proof.
  intros Hcells. unfold timed_region.
  unfold bind at 1. cbn [perf_counter].
  rewrite len_map, range_len.
  assert (Hall : Forall
            (fun p => (p < List.length patterns)%nat /\
                      forall s, (s < List.length sequences)%nat ->
                                has_cell answers_data p s)
            (seq 0 (List.length patterns))).
  { apply Forall_forall. intros p Hin. apply in_seq in Hin.
    split; [lia |]. intros s Hs. apply Hcells; [lia | exact Hs]. }
  rewrite (bind_Return _ _ _ _ _
             (outer_loop_ok answers_data patterns sequences _ 0 _ Hall)).
  cbv [bind perf_counter print emit ret log join]. cbn [clock ticks trace].
  rewrite <- !app_assoc. reflexivity.
Qed.

(** A run on valid input, in full: its status, the clock readings it
    takes and every event in order. *)
Lemma run_valid name argv sequences patterns answers_data w :
  loads' argv sequences patterns answers_data ->
  covers answers_data sequences ->
  run' name argv w
  = (Return
       (Z.of_nat (List.length
          (filter (mismatch init code answers_data patterns sequences)
                  (pairs (List.length patterns) (List.length sequences))))),
     World (clock w) (S (S (ticks w)))
       (trace w ++ loader_events argv ++
        PerfCounter (clock w (ticks w)) ::
        flat_map (pattern_events init code answers_data patterns sequences)
                 (seq 0 (List.length patterns)) ++
        [PerfCounter (clock w (S (ticks w)));
         Print stdout
           (report name (fsub (clock w (S (ticks w))) (clock w (ticks w)))
            ++ nl)])).
Proof.
  intros Hloads Hcov.
  rewrite (run_loads name argv sequences patterns answers_data w Hloads).
  rewrite timed_region_ok.
  - cbn [log clock ticks trace]. now rewrite <- app_assoc.
  - intros p s Hp Hs.
    exact (covers_has_cell argv answers_data patterns sequences p s
             Hloads Hcov Hp Hs).
Qed.

(* ---------------------------------------------------------------- *)
(** ** The two loops on any grid *)

Lemma loop_like_ret {A} (a : A) : loop_like (E := E) (PP := PP) (ret a).
Proof.
  exists (Return a), []. repeat split; [discriminate |].
  intros w. unfold ret. now rewrite log_nil.
Qed.

Lemma loop_like_getitem {A} (l : list A) (i : Z) :
  loop_like (E := E) (PP := PP) (getitem l i).
Proof.
  unfold getitem.
  destruct ((if i <? 0 then i + len l else i) <? 0).
  - exists (Raise IndexError), []. repeat split.
    + now intros e [= <-].
    + intros w. unfold raise. now rewrite log_nil.
  - destruct (nth_error l _) as [x |].
    + apply loop_like_ret.
    + exists (Raise IndexError), []. repeat split.
      * now intros e [= <-].
      * intros w. unfold raise. now rewrite log_nil.
Qed.

Lemma loop_like_emit (ev : event PP) :
  loop_event ev = true -> loop_like (E := E) (emit ev).
Proof.
  intros Hev. exists (Return tt), [ev]. repeat split.
  - discriminate.
  - cbn [forallb]. now rewrite Hev.
Qed.

Lemma loop_like_bind {A B} (m : M E PP A) (k : A -> M E PP B) :
  loop_like m -> (forall a, loop_like (k a)) -> loop_like (bind m k).
Proof.
  intros (o & evs & Ho & Hevs & Hm) Hk.
  destruct o as [a | e].
  - destruct (Hk a) as (o' & evs' & Ho' & Hevs' & Hka).
    exists o', (evs ++ evs'). repeat split.
    + exact Ho'.
    + rewrite forallb_app, Hevs, Hevs'. reflexivity.
    + intros w. unfold bind. now rewrite Hm, Hka, log_log.
  - exists (Raise e), evs. repeat split.
    + intros e' [= <-]. now apply Ho.
    + exact Hevs.
    + intros w. unfold bind. now rewrite Hm.
Qed.

Lemma loop_like_for_each {A S} (body : A -> S -> M E PP S) (xs : list A) :
  (forall x s, loop_like (body x s)) ->
  forall s, loop_like (for_each xs body s).
Proof.
  intros Hbody. induction xs as [| x xs IH]; intros s; cbn [for_each].
  - apply loop_like_ret.
  - apply loop_like_bind; [apply Hbody | exact IH].
Qed.

Lemma loop_like_pair_body answers_data pattern pat_data sequences_data
    sequence rc :
  loop_like (E := E)
    (pair_body code answers_data pattern pat_data sequences_data
       sequence rc).
Proof.
  unfold pair_body, call_code, print.
  apply loop_like_bind; [apply loop_like_getitem | intros seq].
  apply loop_like_bind.
  { apply loop_like_bind; [now apply loop_like_emit | intros _].
    apply loop_like_ret. }
  intros matches. destruct answers_data as [answers |].
  - apply loop_like_bind; [apply loop_like_getitem | intros row].
    apply loop_like_bind; [apply loop_like_getitem | intros expected].
    destruct (negb _); [| apply loop_like_ret].
    apply loop_like_bind; [apply loop_like_getitem | intros row'].
    apply loop_like_bind; [apply loop_like_getitem | intros expected'].
    apply loop_like_bind; [now apply loop_like_emit | intros _].
    apply loop_like_ret.
  - apply loop_like_ret.
Qed.

Lemma loop_like_pattern_body answers_data patterns_data sequences_data
    pattern rc :
  loop_like (E := E)
    (pattern_body init code answers_data patterns_data sequences_data
       pattern rc).
Proof.
  unfold pattern_body, call_init.
  apply loop_like_bind; [apply loop_like_getitem | intros pat].
  apply loop_like_bind.
  { apply loop_like_bind; [now apply loop_like_emit | intros _].
    apply loop_like_ret. }
  intros pat_data. apply loop_like_for_each.
  intros sequence rc'. apply loop_like_pair_body.
Qed.

(** A pass through the inner loop body that comes back has found its
    cell in the grid. *)
Lemma pair_body_Return answers pat_data sequences_data p s rc w r w' :
  (s < List.length sequences_data)%nat ->
  pair_body (E := E) code (Some answers) (Z.of_nat p) pat_data
    sequences_data (Z.of_nat s) rc w = (Return r, w') ->
  has_cell (Some answers) p s.
Proof.
  intros Hs. unfold pair_body.
  rewrite (bind_Return _ _ _ _ _
             (getitem_nth_default sequences_data s [] w Hs)).
  unfold call_code, emit, bind at 1 2. unfold ret at 1. cbv beta iota.
  cbn [has_cell].
  destruct (Nat.lt_ge_cases p (List.length answers)) as [Hp | Hp].
  - rewrite (bind_Return _ _ _ _ _
               (getitem_nth_default answers p [] _ Hp)).
    destruct (Nat.lt_ge_cases s (List.length (nth p answers [])))
      as [Hrow | Hrow]; [now split |].
    rewrite (bind_Raise _ _ _ _ _ (getitem_past _ s _ Hrow)).
    discriminate.
  - rewrite (bind_Raise _ _ _ _ _ (getitem_past _ p _ Hp)).
    discriminate.
Qed.

Lemma for_each_Return {A S} (body : A -> S -> M E PP S) (Q : A -> Prop)
    (xs : list A) :
  (forall x s w r w', In x xs -> body x s w = (Return r, w') -> Q x) ->
  forall s w r w',
    for_each xs body s w = (Return r, w') -> Forall Q xs.
Proof.
  induction xs as [| x xs IH]; intros Hbody s w r w' Hrun;
    [constructor |].
  cbn [for_each] in Hrun. unfold bind in Hrun.
  destruct (body x s w) as [[s1 | e] w1] eqn:Hx; [| discriminate].
  constructor.
  - exact (Hbody x s w s1 w1 (or_introl eq_refl) Hx).
  - apply (IH (fun y t v r0 v' Hin => Hbody y t v r0 v' (or_intror Hin))
             s1 w1 r w' Hrun).
Qed.

Lemma pattern_body_Return answers patterns_data sequences_data p rc w r w' :
  (p < List.length patterns_data)%nat ->
  pattern_body (E := E) init code (Some answers) patterns_data
    sequences_data (Z.of_nat p) rc w = (Return r, w') ->
  forall s, (s < List.length sequences_data)%nat ->
            has_cell (Some answers) p s.
Proof.
  intros Hp. unfold pattern_body.
  rewrite (bind_Return _ _ _ _ _
             (getitem_nth_default patterns_data p [] w Hp)).
  unfold call_init, emit, bind at 1 2. unfold ret at 1. cbv beta iota.
  rewrite range_len. intros Hrun s Hs.
  apply for_each_Return
    with (Q := fun z => forall s, z = Z.of_nat s ->
                                  has_cell (Some answers) p s) in Hrun.
  - rewrite Forall_forall in Hrun.
    apply (Hrun (Z.of_nat s)); [| reflexivity].
    apply in_map, in_seq. lia.
  - intros z rc0 w0 r0 w0' Hin Hbody s0 ->.
    apply in_map_iff in Hin. destruct Hin as (s1 & Heq & Hin).
    apply Nat2Z.inj in Heq. subst s1. apply in_seq in Hin.
    assert (Hs0 : (s0 < List.length sequences_data)%nat) by lia.
    exact (pair_body_Return _ _ _ _ _ _ _ _ _ Hs0 Hbody).
Qed.

(** A timed region that comes back has found every cell. *)
Lemma timed_region_Return name answers patterns sequences w r w' :
  timed_region (E := E) init code name (Some answers) patterns sequences w
  = (Return r, w') ->
  forall p s, (p < List.length patterns)%nat ->
              (s < List.length sequences)%nat ->
              has_cell (Some answers) p s.
Proof.
  unfold timed_region. unfold bind at 1. cbn [perf_counter].
  rewrite len_map, range_len. unfold bind at 1.
  destruct (for_each _ _ _ _) as [[rc | e] w1] eqn:Hloop; [| discriminate].
  intros _ p s Hp Hs.
  apply for_each_Return
    with (Q := fun z => forall p, z = Z.of_nat p ->
               forall s, (s < List.length sequences)%nat ->
                         has_cell (Some answers) p s) in Hloop.
  - rewrite Forall_forall in Hloop.
    apply (Hloop (Z.of_nat p)); [| reflexivity | exact Hs].
    apply in_map, in_seq. lia.
  - intros z rc0 w0 r0 w0' Hin Hbody p0 -> s0 Hs0.
    apply in_map_iff in Hin. destruct Hin as (p1 & Heq & Hin).
    apply Nat2Z.inj in Heq. subst p1. apply in_seq in Hin.
    apply (pattern_body_Return answers (map encode patterns)
             (map encode sequences) p0 rc0 w0 r0 w0').
    + rewrite length_map. lia.
    + exact Hbody.
    + now rewrite length_map.
Qed.

(** The timed region on any corpus and grid: how it ends and which
    events the loops add do not depend on the world it starts in, nor on
    the name; it either raises IndexError with the clock read once, or
    returns with the clock read twice and the report printed last. *)
Lemma timed_region_shape answers_data patterns sequences :
  exists (o : outcome E Z) (evs : list (event PP)),
    (forall e, o = Raise e -> e = IndexError) /\
    forallb loop_event evs = true /\
    forall name w,
      timed_region init code name answers_data patterns sequences w
      = match o with
        | Return rc =>
            (Return rc,
             World (clock w) (S (S (ticks w)))
               (trace w ++ PerfCounter (clock w (ticks w)) :: evs ++
                [PerfCounter (clock w (S (ticks w)));
                 Print stdout
                   (report name
                      (fsub (clock w (S (ticks w))) (clock w (ticks w)))
                    ++ nl)]))
        | Raise e =>
            (Raise e,
             World (clock w) (S (ticks w))
               (trace w ++ PerfCounter (clock w (ticks w)) :: evs))
        end.
Proof.
  destruct (loop_like_for_each
              (pattern_body init code answers_data (map encode patterns)
                 (map encode sequences))
              (range (len (map encode patterns)))
              (fun pattern rc => loop_like_pattern_body answers_data
                                   (map encode patterns)
                                   (map encode sequences) pattern rc) 0)
    as (o & evs & Ho & Hevs & Hloop).
  exists o, evs. split; [exact Ho |]. split; [exact Hevs |].
  intros name w. unfold timed_region.
  unfold bind at 1. cbn [perf_counter].
  unfold bind at 1. rewrite Hloop.
  destruct o as [rc | e].
  - cbv [bind perf_counter print emit ret log join].
    cbn [clock ticks trace]. rewrite <- !app_assoc. reflexivity.
  - cbv [log]. cbn [clock ticks trace]. rewrite <- !app_assoc. reflexivity.
Qed.

(* ---------------------------------------------------------------- *)
(** ** The argument check *)

Lemma run_no_program name w : run' name [] w = (Raise IndexError, w).
Proof. reflexivity. Qed.

Lemma run_usage name prog inputs w :
  ~ (2 <= List.length inputs <= 3)%nat ->
  run' name (prog :: inputs) w = (Raise (Exception (usage prog)), w).
Proof.
  intros Hcount. unfold run.
  replace ((len (prog :: inputs) <? 3) || (len (prog :: inputs) >? 4))
    with true.
  - reflexivity.
  - symmetry. apply orb_true_iff. unfold len. cbn [List.length].
    rewrite Z.ltb_lt, Z.gtb_gt. lia.
Qed.

Lemma run_input_phase name prog arg1 arg2 rest w :
  (List.length rest <= 1)%nat ->
  run' name (prog :: arg1 :: arg2 :: rest) w
  = match input_phase read_sequences read_patterns read_answers
            arg1 arg2 rest with
    | (evs, Failed e) => (Raise e, log w evs)
    | (evs, Loaded sequences patterns answers_data) =>
        timed_region init code name answers_data patterns sequences
          (log w evs)
    end.
Proof.
  intros Hrest. unfold run, input_phase.
  replace ((len (prog :: arg1 :: arg2 :: rest) <? 3)
           || (len (prog :: arg1 :: arg2 :: rest) >? 4)) with false.
  2:{ symmetry. apply orb_false_iff. unfold len. cbn [List.length].
      rewrite Z.ltb_ge, Z.gtb_ltb, Z.ltb_ge. lia. }
  rewrite (bind_Return _ _ w arg1 w) by reflexivity.
  destruct (read_sequences arg1) as [e | sequences].
  { now rewrite (bind_Raise _ _ _ _ _ (call_loader_fail _ _ _ _ eq_refl)). }
  rewrite (bind_Return _ _ _ _ _ (call_loader_ok _ _ _ _ eq_refl)).
  rewrite (bind_Return _ _ _ arg2 _) by reflexivity.
  destruct (read_patterns arg2) as [e | patterns].
  { rewrite (bind_Raise _ _ _ _ _ (call_loader_fail _ _ _ _ eq_refl)).
    now rewrite log_log. }
  rewrite (bind_Return _ _ _ _ _ (call_loader_ok _ _ _ _ eq_refl)).
  rewrite log_log. cbn [app].
  destruct rest as [| arg3 [| ? ?]]; [| | cbn [List.length] in Hrest; lia].
  - reflexivity.
  - change (len [prog; arg1; arg2; arg3] =? 4) with true. cbv iota.
    unfold bind at 1.
    rewrite (bind_Return _ _ _ arg3 _) by reflexivity.
    destruct (read_answers arg3) as [e | answers].
    { rewrite (bind_Raise _ _ _ _ _ (call_loader_fail _ _ _ _ eq_refl)).
      now rewrite log_log. }
    rewrite (bind_Return _ _ _ _ _ (call_loader_ok _ _ _ _ eq_refl)).
    rewrite log_log. cbn [app].
    destruct (negb (len answers =? len patterns)); reflexivity.
Qed.

(* ---------------------------------------------------------------- *)
(** ** Reading a trace *)

Lemma events_of_app {A} (m : M E PP A) w (o : outcome E A) c t evs :
  m w = (o, World c t (trace w ++ evs)) -> events_of m w = evs.
Proof.
  intros H. unfold events_of. rewrite H. cbn [snd trace].
  rewrite skipn_app, skipn_all, Nat.sub_diag. reflexivity.
Qed.

Lemma matcher_calls_app evs evs' :
  matcher_calls (evs ++ evs') = matcher_calls evs ++ matcher_calls evs'.
Proof. apply filter_app. Qed.

Lemma printed_app file evs evs' :
  printed file (evs ++ evs') = printed file evs ++ printed file evs'.
Proof. apply flat_map_app. Qed.

Lemma untimed_app evs evs' :
  untimed (evs ++ evs') = untimed evs ++ untimed evs'.
Proof. apply filter_app. Qed.

Lemma matcher_calls_loader_events argv :
  matcher_calls (PP := PP) (loader_events argv) = [].
Proof. destruct argv as [| ? [| ? [| ? [| ? ?]]]]; reflexivity. Qed.

Lemma printed_loader_events file argv :
  printed (PP := PP) file (loader_events argv) = [].
Proof.
  destruct file; destruct argv as [| ? [| ? [| ? [| ? ?]]]]; reflexivity.
Qed.

Lemma matcher_calls_pair_events answers_data patterns sequences p ss :
  matcher_calls
    (flat_map (pair_events init code answers_data patterns sequences p) ss)
  = map (code_event init code patterns sequences p) ss.
Proof.
  induction ss as [| s ss IH]; [reflexivity |].
  cbn [flat_map map]. rewrite matcher_calls_app, IH. unfold pair_events.
  destruct answers_data as [answers |]; [| reflexivity].
  destruct (mismatch _ _ _ _ _ _); reflexivity.
Qed.

Lemma matcher_calls_pattern_events answers_data patterns sequences ps :
  matcher_calls
    (flat_map (pattern_events init code answers_data patterns sequences) ps)
  = flat_map
      (fun p => Init (encode (nth p patterns [])) ::
                map (code_event init code patterns sequences p)
                    (seq 0 (List.length sequences))) ps.
Proof.
  induction ps as [| p ps IH]; [reflexivity |].
  cbn [flat_map]. rewrite matcher_calls_app, IH. unfold pattern_events.
  change (matcher_calls (Init ?pat :: ?evs))
    with (Init (PP := PP) pat :: matcher_calls evs).
  now rewrite matcher_calls_pair_events.
Qed.

Lemma printed_stderr_pair_events answers patterns sequences p ss :
  printed stderr
    (flat_map (pair_events init code (Some answers) patterns sequences p)
              ss)
  = map (diagnostic_of init code answers patterns sequences)
        (filter (mismatch init code (Some answers) patterns sequences)
                (map (fun s => (p, s)) ss)).
Proof.
  induction ss as [| s ss IH]; [reflexivity |].
  cbn [flat_map map filter]. rewrite printed_app, IH. unfold pair_events.
  destruct (mismatch _ _ _ _ _ _); reflexivity.
Qed.

Lemma printed_stderr_pattern_events answers patterns sequences ps :
  printed stderr
    (flat_map (pattern_events init code (Some answers) patterns sequences)
              ps)
  = map (diagnostic_of init code answers patterns sequences)
        (filter (mismatch init code (Some answers) patterns sequences)
                (list_prod ps (seq 0 (List.length sequences)))).
Proof.
  induction ps as [| p ps IH]; [reflexivity |].
  cbn [flat_map list_prod]. rewrite printed_app, IH, filter_app, map_app.
  unfold pattern_events.
  change (printed stderr (Init ?pat :: ?evs)) with (printed stderr evs).
  now rewrite printed_stderr_pair_events.
Qed.

Lemma printed_stdout_loop evs :
  forallb loop_event evs = true -> printed stdout evs = [].
Proof.
  induction evs as [| ev evs IH]; [reflexivity |].
  cbn [forallb]. intros H. apply andb_true_iff in H. destruct H as [Hev H].
  cbn [printed flat_map]. fold (printed stdout evs). rewrite (IH H).
  destruct ev as [| | | | | | [|] ?]; try reflexivity; discriminate.
Qed.

Lemma untimed_loop evs : forallb loop_event evs = true -> untimed evs = evs.
Proof.
  induction evs as [| ev evs IH]; [reflexivity |].
  cbn [forallb]. intros H. apply andb_true_iff in H. destruct H as [Hev H].
  cbn [untimed filter]. fold (untimed evs). rewrite (IH H).
  destruct ev as [| | | | | | [|] ?]; try reflexivity; discriminate.
Qed.

Lemma loop_event_pair_events answers_data patterns sequences p ss :
  forallb loop_event
    (flat_map (pair_events init code answers_data patterns sequences p) ss)
  = true.
Proof.
  induction ss as [| s ss IH]; [reflexivity |].
  cbn [flat_map]. rewrite forallb_app, IH, andb_true_r. unfold pair_events.
  destruct answers_data as [answers |]; [| reflexivity].
  destruct (mismatch _ _ _ _ _ _); reflexivity.
Qed.

Lemma loop_event_pattern_events answers_data patterns sequences ps :
  forallb loop_event
    (flat_map (pattern_events init code answers_data patterns sequences) ps)
  = true.
Proof.
  induction ps as [| p ps IH]; [reflexivity |].
  cbn [flat_map]. rewrite forallb_app, IH, andb_true_r.
  unfold pattern_events. cbn [forallb loop_event].
  apply loop_event_pair_events.
Qed.

Lemma filter_none {A} (l : list A) : filter (fun _ => false) l = [].
Proof. induction l; [reflexivity | assumption]. Qed.

End Facts.

(* ------------------------------------------------------------------ *)
(** ** The shape of formatted numbers *)

Lemma is_digit_mod (x : Z) : is_digit (digit (x mod 10)) = true.
Proof.
  pose proof (Z.mod_pos_bound x 10 eq_refl) as Hd.
  unfold digit, is_digit.
  apply andb_true_iff. rewrite !N.leb_le. lia.
Qed.

Lemma frac6_digits (r : Z) : forallb is_digit (frac6 r) = true.
Proof.
  unfold frac6. cbn [map forallb]. now rewrite !is_digit_mod.
Qed.

Lemma uint_chars (u : Decimal.uint) :
  forallb int_char (lit (NilEmpty.string_of_uint u)) = true.
Proof. induction u; cbn; auto. Qed.

Lemma str_of_int_chars (n : Z) : forallb int_char (str_of_int n) = true.
Proof.
  unfold str_of_int, NilZero.string_of_int, NilZero.string_of_uint.
  destruct (Z.to_int n) as [u | u]; destruct u;
    try reflexivity; try apply uint_chars;
    change (forallb int_char (lit (String "-" ?t)))
      with (forallb int_char (lit t)); apply uint_chars.
Qed.

Lemma fixed6_six_decimals (sign : bool) (n : Z) : six_decimals (fixed6 sign n).
Proof.
  exists ((if sign then lit "-" else []) ++ str_of_int (n / 10 ^ 6)),
         (frac6 (n mod 10 ^ 6)).
  repeat split.
  - unfold fixed6. now rewrite <- app_assoc.
  - rewrite forallb_app, str_of_int_chars. now destruct sign.
  - apply frac6_digits.
Qed.

(** A finite float is printed with exactly six digits after the point. *)
Lemma format_6f_six_decimals (x : float) :
  is_finite x = true -> six_decimals (format_6f x).
Proof.
  destruct x as [s | s | | s m e]; try discriminate; intros _;
    apply fixed6_six_decimals.
Qed.

(* ------------------------------------------------------------------ *)
(** ** A run in any world *)

Section Worlds.

Context {E PP : Type}.
Variables read_sequences read_patterns : str -> E + list str.
Variable read_answers : str -> E + list (list Z).
Variable init : list Z -> PP.
Variable code : PP -> list Z -> Z.

Implicit Types (w : world PP) (evs : list (event PP)).

Local Abbreviation run' :=
  (run read_sequences read_patterns read_answers init code).
Local Abbreviation input_phase' :=
  (input_phase (PP := PP) read_sequences read_patterns read_answers).

Lemma events_of_same {A} (m : M E PP A) w (o : outcome E A) :
  m w = (o, w) -> events_of m w = [].
Proof.
  intros H. unfold events_of. rewrite H. apply skipn_all.
Qed.

Lemma events_of_log {A} (m : M E PP A) w (o : outcome E A) evs :
  m w = (o, log w evs) -> events_of m w = evs.
Proof. intros H. exact (events_of_app m w o _ _ evs H). Qed.

Lemma untimed_PerfCounter (t : float) evs :
  untimed (PerfCounter t :: evs) = untimed evs.
Proof. reflexivity. Qed.

Lemma untimed_close (t : float) (text : str) :
  untimed (PP := PP) [PerfCounter t; Print stdout text] = [].
Proof. reflexivity. Qed.

Lemma usage_not_count_mismatch prog : usage prog <> count_mismatch.
Proof. discriminate. Qed.

(** The input phase starts by asking the Loader for the sequences, makes
    nothing but Loader calls, and raises no exception of its own other
    than the count mismatch. *)
Lemma input_phase_events arg1 arg2 rest :
  exists more,
    fst (input_phase' arg1 arg2 rest) = ReadSequences arg1 :: more /\
    untimed (fst (input_phase' arg1 arg2 rest))
    = fst (input_phase' arg1 arg2 rest).
Proof.
  unfold input_phase.
  destruct (read_sequences arg1); [now eexists |].
  destruct (read_patterns arg2); [now eexists |].
  destruct rest; now eexists.
Qed.

Lemma input_phase_Failed arg1 arg2 rest msg :
  snd (input_phase' arg1 arg2 rest) = Failed (Exception msg) ->
  msg = count_mismatch.
Proof.
  unfold input_phase.
  destruct (read_sequences arg1); [discriminate |].
  destruct (read_patterns arg2); [discriminate |].
  destruct rest; [discriminate |]. cbn [snd].
  destruct (read_answers _); [discriminate |].
  destruct (negb _); [| discriminate].
  now intros [= <-].
Qed.

(** A run whose argument count passes the first check. *)
Lemma run_in_range prog arg1 arg2 rest :
  (List.length rest <= 1)%nat ->
  exists (o : outcome E Z) (quiet : list (event PP)),
    (forall msg, o = Raise (Exception msg) -> msg = count_mismatch) /\
    forall name w,
      fst (run' name (prog :: arg1 :: arg2 :: rest) w) = o /\
      untimed (events_of (run' name (prog :: arg1 :: arg2 :: rest)) w)
      = quiet /\
      exists more,
        events_of (run' name (prog :: arg1 :: arg2 :: rest)) w
        = ReadSequences arg1 :: more.
Proof.
  intros Hrest.
  destruct (input_phase_events arg1 arg2 rest) as (more & Hhead & Hquiet).
  pose proof (input_phase_Failed arg1 arg2 rest) as Hfailed.
  pose proof (fun name w =>
                run_input_phase read_sequences read_patterns read_answers
                  init code name prog arg1 arg2 rest w Hrest) as Hrun.
  destruct (input_phase' arg1 arg2 rest)
    as [lev [sequences patterns answers_data | e]].
  - cbn [fst snd] in *.
    destruct (timed_region_shape (E := E) init code answers_data patterns
                sequences)
      as (o & evs & Ho & Hevs & Htimed).
    exists o, (lev ++ evs). split.
    { intros msg ->. specialize (Ho _ eq_refl). discriminate. }
    intros name w. specialize (Hrun name w).
    rewrite Htimed in Hrun.
    destruct o as [rc | e];
      cbn [log clock ticks trace] in Hrun; rewrite <- app_assoc in Hrun;
      rewrite (events_of_app _ _ _ _ _ _ Hrun), Hrun; cbn [fst];
      (split; [reflexivity |]); split.
    + rewrite untimed_app, Hquiet, untimed_PerfCounter, untimed_app.
      rewrite (untimed_loop evs Hevs), untimed_close.
      now rewrite app_nil_r.
    + rewrite Hhead. cbn [app]. now eexists.
    + rewrite untimed_app, Hquiet, untimed_PerfCounter.
      now rewrite (untimed_loop evs Hevs).
    + rewrite Hhead. cbn [app]. now eexists.
  - cbn [fst snd] in *. exists (Raise e), lev. split.
    { intros msg [= ->]. now apply Hfailed. }
    intros name w. rewrite Hrun. cbn [fst].
    rewrite (events_of_log _ _ _ _ (Hrun name w)).
    split; [reflexivity |]. split; [exact Hquiet |].
    rewrite Hhead. now eexists.
Qed.

(** How a run ends, and what it does apart from reading the clock and
    printing the report, is the same in every world and under every
    name. *)
Lemma run_world_independent argv :
  exists (o : outcome E Z) (quiet : list (event PP)),
    forall name w,
      fst (run' name argv w) = o /\
      untimed (events_of (run' name argv) w) = quiet.
Proof.
  destruct argv as [| prog inputs].
  { exists (Raise IndexError), []. intros name w.
    now rewrite (events_of_same _ _ _ (run_no_program _ _ _ _ _ name w)). }
  assert (Husage : ~ (2 <= List.length inputs <= 3)%nat ->
            exists (o : outcome E Z) (quiet : list (event PP)),
              forall name w,
                fst (run' name (prog :: inputs) w) = o /\
                untimed (events_of (run' name (prog :: inputs)) w) = quiet).
  { intros Hcount. exists (Raise (Exception (usage prog))), [].
    intros name w.
    pose proof (run_usage read_sequences read_patterns read_answers
                  init code name prog inputs w Hcount) as Hrun.
    now rewrite (events_of_same _ _ _ Hrun), Hrun. }
  destruct inputs as [| arg1 [| arg2 rest]];
    [apply Husage; cbn; lia | apply Husage; cbn; lia |].
  destruct (le_gt_dec (List.length rest) 1) as [Hrest | Hrest].
  - destruct (run_in_range prog arg1 arg2 rest Hrest)
      as (o & quiet & _ & Hrun).
    exists o, quiet. intros name w.
    destruct (Hrun name w) as (Ho & Hq & _). now split.
  - apply Husage. cbn [List.length]. lia.
Qed.

End Worlds.

(* ------------------------------------------------------------------ *)
(** ** The properties of the driver *)

Section Claims.

Context {E PP : Type}.
Variables read_sequences read_patterns : str -> E + list str.
Variable read_answers : str -> E + list (list Z).
Variable init : list Z -> PP.
Variable code : PP -> list Z -> Z.

Implicit Types (w : world PP) (evs : list (event PP)).

Local Abbreviation run' :=
  (run read_sequences read_patterns read_answers init code).
Local Abbreviation loads' := (loads read_sequences read_patterns read_answers).
Local Abbreviation run_valid' :=
  (run_valid read_sequences read_patterns read_answers init code).

(** C1. On valid input with an answer grid (the input phase goes through
    and every row of the grid has a cell for every sequence), [run]
    returns exactly the number of pairs (p, s) at which the matcher's
    count differs from the grid's cell, as an unbounded integer: 0 when
    no pair differs, and never a capped value. *)
Theorem run_returns_mismatch_count name argv sequences patterns answers w :
  loads' argv sequences patterns (Some answers) ->
  covers (Some answers) sequences ->
  fst (run' name argv w)
  = Return
      (Z.of_nat
         (List.length
            (filter
               (fun ps =>
                  negb (match_count init code patterns sequences
                          (fst ps) (snd ps)
                        =? answer answers (fst ps) (snd ps)))
               (pairs (List.length patterns) (List.length sequences))))).
Proof.
  intros Hloads Hcov.
  now rewrite (run_valid' name argv sequences patterns (Some answers) w
                 Hloads Hcov).
Qed.

(** C2. On valid input, with or without an answer grid, the matcher calls
    of the run are, in this order: for each pattern in ascending position,
    one [Init] on that pattern followed by one [Code] per sequence in
    ascending position, on the handle that [Init] returned. *)
Theorem run_calls_matcher_in_order name argv sequences patterns
    answers_data w :
  loads' argv sequences patterns answers_data ->
  covers answers_data sequences ->
  matcher_calls (events_of (run' name argv) w)
  = expected_calls init code patterns sequences.
Proof.
  intros Hloads Hcov.
  rewrite (events_of_app _ _ _ _ _ _
             (run_valid' name argv sequences patterns answers_data w
                Hloads Hcov)).
  rewrite matcher_calls_app, matcher_calls_loader_events.
  change (matcher_calls (PerfCounter ?t :: ?l))
    with (matcher_calls (PP := PP) l).
  rewrite matcher_calls_app, matcher_calls_pattern_events.
  cbn [app matcher_calls filter is_matcher_call].
  now rewrite app_nil_r.
Qed.

(** C3. With three inputs loaded and an answer grid whose number of rows
    differs from the number of patterns, [run] raises the count-mismatch
    exception having made the three Loader calls and nothing else: the
    clock has not been read and the matcher has not been called. *)
Theorem run_count_mismatch name prog arg1 arg2 arg3 sequences patterns
    answers w :
  read_sequences arg1 = inr sequences ->
  read_patterns arg2 = inr patterns ->
  read_answers arg3 = inr answers ->
  List.length answers <> List.length patterns ->
  run' name [prog; arg1; arg2; arg3] w
  = (Raise (Exception count_mismatch),
     World (clock w) (ticks w)
       (trace w ++
        [ReadSequences arg1; ReadPatterns arg2; ReadAnswers arg3])).
Proof.
  intros Hseq Hpat Hans Hrows.
  rewrite run_input_phase by (cbn; lia).
  unfold input_phase. rewrite Hseq, Hpat, Hans.
  replace (len answers =? len patterns) with false.
  - reflexivity.
  - symmetry. apply Z.eqb_neq. unfold len. lia.
Qed.

(** C4. With the program name followed by [inputs], [run] raises the usage
    exception, quoting the program name, exactly when the number of inputs
    is not 2 or 3; it does so leaving the world untouched (no Loader call,
    no matcher call, no clock reading); with 2 or 3 inputs the run goes on
    to its first Loader call. *)
Theorem run_usage_error name prog inputs w :
  (fst (run' name (prog :: inputs) w) = Raise (Exception (usage prog))
   <-> ~ (2 <= List.length inputs <= 3)%nat) /\
  (~ (2 <= List.length inputs <= 3)%nat ->
   snd (run' name (prog :: inputs) w) = w) /\
  ((2 <= List.length inputs <= 3)%nat ->
   exists more,
     events_of (run' name (prog :: inputs)) w
     = ReadSequences (nth 0 inputs []) :: more).
Proof.
  assert (Hin : (2 <= List.length inputs <= 3)%nat ->
            fst (run' name (prog :: inputs) w)
            <> Raise (Exception (usage prog)) /\
            exists more,
              events_of (run' name (prog :: inputs)) w
              = ReadSequences (nth 0 inputs []) :: more).
  { intros Hcount.
    destruct inputs as [| arg1 [| arg2 rest]];
      [cbn in Hcount; lia | cbn in Hcount; lia |].
    destruct (run_in_range read_sequences read_patterns read_answers
                init code prog arg1 arg2 rest
                ltac:(cbn [List.length] in Hcount; lia))
      as (o & quiet & Ho & Hrun).
    destruct (Hrun name w) as (Hfst & _ & Hmore).
    split; [| exact Hmore].
    rewrite Hfst. intros ->.
    exact (usage_not_count_mismatch prog (Ho _ eq_refl)). }
  repeat split.
  - intros Husage Hcount. now apply (proj1 (Hin Hcount)).
  - intros Hcount. now rewrite run_usage.
  - intros Hcount. now rewrite run_usage.
  - intros Hcount. exact (proj2 (Hin Hcount)).
Qed.

(** C5. On valid input with an answer grid, what the run prints on
    stderr is, in pair order, one line
    [Pattern p mismatch against sequence s (actual != expected)] for each
    pair whose count differs from its cell, with [p] and [s] counted from
    1, and nothing else; the run still makes every matcher call and
    returns. *)
Theorem run_diagnostics name argv sequences patterns answers w :
  loads' argv sequences patterns (Some answers) ->
  covers (Some answers) sequences ->
  printed stderr (events_of (run' name argv) w)
  = map (fun ps =>
           diagnostic (Z.of_nat (fst ps) + 1) (Z.of_nat (snd ps) + 1)
             (match_count init code patterns sequences (fst ps) (snd ps))
             (answer answers (fst ps) (snd ps)))
        (filter
           (fun ps =>
              negb (match_count init code patterns sequences
                      (fst ps) (snd ps)
                    =? answer answers (fst ps) (snd ps)))
           (pairs (List.length patterns) (List.length sequences))) /\
  matcher_calls (events_of (run' name argv) w)
  = expected_calls init code patterns sequences /\
  exists status, fst (run' name argv w) = Return status.
Proof.
  intros Hloads Hcov.
  pose proof (run_valid' name argv sequences patterns (Some answers) w
                Hloads Hcov) as Hrun.
  rewrite (events_of_app _ _ _ _ _ _ Hrun), Hrun.
  split; [| split; [| now eexists]].
  - rewrite printed_app, printed_loader_events.
    change (printed stderr (PerfCounter ?t :: ?l))
      with (printed (PP := PP) stderr l).
    rewrite printed_app, printed_stderr_pattern_events.
    cbn [app printed flat_map]. now rewrite app_nil_r.
  - rewrite matcher_calls_app, matcher_calls_loader_events.
    change (matcher_calls (PerfCounter ?t :: ?l))
      with (matcher_calls (PP := PP) l).
    rewrite matcher_calls_app, matcher_calls_pattern_events.
    cbn [app matcher_calls filter is_matcher_call].
    now rewrite app_nil_r.
Qed.

(** C6. When the input phase goes through without an answer grid, [run]
    returns 0, whatever the matcher is. *)
Theorem run_without_answers name argv sequences patterns w :
  loads' argv sequences patterns None ->
  fst (run' name argv w) = Return 0.
Proof.
  intros Hloads.
  rewrite (run_valid' name argv sequences patterns None w Hloads I).
  cbn [fst]. unfold mismatch. now rewrite filter_none.
Qed.

(** C8, as amended. On valid input (the input phase goes through and the
    answer grid, if any, has a cell for every pair) and with a finite
    elapsed time, the events of the run end with the second clock reading
    followed by the one and only write to stdout, whatever the matcher
    and the grid say; its text is the three lines [language: python],
    [algorithm: ] with the name as given, and [runtime: ] with the
    elapsed seconds as an integer part, a point and exactly six digits. *)
Theorem run_reports_once name argv sequences patterns answers_data w :
  loads' argv sequences patterns answers_data ->
  covers answers_data sequences ->
  is_finite (fsub (clock w (S (ticks w))) (clock w (ticks w))) = true ->
  exists (before : list (event PP)) (runtime : str),
    events_of (run' name argv) w
    = before ++
      [PerfCounter (clock w (S (ticks w)));
       Print stdout
         (lit "language: python" ++ nl ++ lit "algorithm: " ++ name ++ nl
          ++ lit "runtime: " ++ runtime ++ nl)] /\
    printed stdout before = [] /\
    printed stdout (events_of (run' name argv) w)
    = [lit "language: python" ++ nl ++ lit "algorithm: " ++ name ++ nl
       ++ lit "runtime: " ++ runtime ++ nl] /\
    runtime = format_6f (fsub (clock w (S (ticks w))) (clock w (ticks w)))
    /\
    six_decimals runtime.
Proof.
  intros Hloads Hcov Hfinite.
  pose proof (run_valid' name argv sequences patterns answers_data w
                Hloads Hcov) as Hrun.
  rewrite (events_of_app _ _ _ _ _ _ Hrun).
  exists (loader_events argv ++
          PerfCounter (clock w (ticks w)) ::
          flat_map (pattern_events init code answers_data patterns
                      sequences)
                   (seq 0 (List.length patterns))),
         (format_6f (fsub (clock w (S (ticks w))) (clock w (ticks w)))).
  assert (Hbefore :
            printed stdout
              (loader_events argv ++
               PerfCounter (clock w (ticks w)) ::
               flat_map (pattern_events init code answers_data patterns
                           sequences)
                        (seq 0 (List.length patterns))) = []).
  { rewrite printed_app, printed_loader_events.
    change (printed stdout (PerfCounter ?t :: ?l))
      with (printed (PP := PP) stdout l).
    apply printed_stdout_loop, loop_event_pattern_events. }
  assert (Hshape :
            loader_events argv ++
            PerfCounter (clock w (ticks w)) ::
            flat_map (pattern_events init code answers_data patterns
                        sequences)
                     (seq 0 (List.length patterns)) ++
            [PerfCounter (clock w (S (ticks w)));
             Print stdout
               (report name
                  (fsub (clock w (S (ticks w))) (clock w (ticks w)))
                ++ nl)]
            = (loader_events argv ++
               PerfCounter (clock w (ticks w)) ::
               flat_map (pattern_events init code answers_data patterns
                           sequences)
                        (seq 0 (List.length patterns))) ++
              [PerfCounter (clock w (S (ticks w)));
               Print stdout
                 (lit "language: python" ++ nl ++ lit "algorithm: " ++
                  name ++ nl ++ lit "runtime: " ++
                  format_6f
                    (fsub (clock w (S (ticks w))) (clock w (ticks w)))
                  ++ nl)]).
  { unfold report. rewrite <- !app_assoc. reflexivity. }
  rewrite Hshape. split; [reflexivity |]. split; [exact Hbefore |].
  split; [| split; [reflexivity | now apply format_6f_six_decimals]].
  rewrite printed_app, Hbefore. reflexivity.
Qed.

(** C9. Two runs on the same arguments, with the same Loader contents and
    the same matcher, started in any two worlds (clocks, earlier traces)
    and under any two names, end the same way (same status or same
    exception) and make the same Loader calls and matcher calls with the
    same counts and print the same diagnostics, in the same order; they
    may differ only in the clock readings and the report. *)
Theorem runs_agree name1 name2 argv w1 w2 :
  fst (run' name1 argv w1) = fst (run' name2 argv w2) /\
  untimed (events_of (run' name1 argv) w1)
  = untimed (events_of (run' name2 argv) w2).
Proof.
  destruct (run_world_independent read_sequences read_patterns
              read_answers init code argv) as (o & quiet & Hrun).
  destruct (Hrun name1 w1) as [H1 Hq1].
  destruct (Hrun name2 w2) as [H2 Hq2].
  now rewrite H1, H2, Hq1, Hq2.
Qed.

(** C10. When the input phase goes through with an answer grid (so the
    row count has been checked) but some row is shorter than the number
    of sequences, [run] raises IndexError after the first clock reading
    and before the second: the clock has been read once, and after that
    reading there are only matcher calls and diagnostics, no report. *)
Theorem run_short_row_index_error name argv sequences patterns answers w :
  loads' argv sequences patterns (Some answers) ->
  existsb (fun row => (List.length row <? List.length sequences)%nat)
          answers = true ->
  exists evs,
    run' name argv w
    = (Raise IndexError,
       World (clock w) (S (ticks w))
         (trace w ++ loader_events argv ++
          PerfCounter (clock w (ticks w)) :: evs)) /\
    forallb loop_event evs = true.
Proof.
  intros Hloads Hshort.
  rewrite (run_loads read_sequences read_patterns read_answers init code
             name argv sequences patterns (Some answers) w Hloads).
  destruct (timed_region_shape (E := E) init code (Some answers) patterns
              sequences) as (o & evs & Ho & Hevs & Htimed).
  specialize (Htimed name (log w (loader_events argv))).
  destruct o as [rc | e].
  - exfalso.
    apply existsb_exists in Hshort. destruct Hshort as (row & Hin & Hlt).
    apply Nat.ltb_lt in Hlt.
    destruct (In_nth answers row [] Hin) as (p & Hp & Hrow).
    assert (Hlen : List.length answers = List.length patterns).
    { unfold loads in Hloads.
      destruct argv as [| ? [| ? [| ? [| ? [| ? ?]]]]];
        try contradiction; tauto. }
    destruct (timed_region_Return init code name answers patterns
                sequences _ _ _ Htimed p (List.length row)
                ltac:(lia) Hlt) as [_ Hcell].
    rewrite Hrow in Hcell. lia.
  - rewrite (Ho e eq_refl) in Htimed. exists evs. split; [| exact Hevs].
    rewrite Htimed. cbn [log clock ticks trace].
    now rewrite <- app_assoc.
Qed.

End Claims.

(** C7. Encoding a string keeps its length and puts at each position the
    code point of the character at that position; encoding a corpus keeps
    its strings in place, each encoded. *)
Theorem encode_preserves (s : str) (corpus : list str) :
  List.length (encode s) = List.length s /\
  (forall i, nth_error (encode s) i = option_map ord (nth_error s i)) /\
  List.length (map encode corpus) = List.length corpus /\
  (forall k, nth_error (map encode corpus) k
             = option_map encode (nth_error corpus k)).
Proof.
  unfold encode. repeat split.
  - apply length_map.
  - intros i. apply nth_error_map.
  - apply length_map.
  - intros k. apply nth_error_map.
Qed.

(* ------------------------------------------------------------------ *)
(** ** The scenarios, run *)

(** Scenario A: no answer grid, status 0, the report names the algorithm. *)
Example scenario_a :
  fst (Scenario.run_with Scenario.code Scenario.argv_a Scenario.start)
  = Return 0 /\
  matcher_calls
    (trace (snd (Scenario.run_with Scenario.code Scenario.argv_a
                   Scenario.start)))
  = [Init [97; 98]; Code [97; 98] [97; 98; 97; 98] 2] /\
  printed stdout
    (trace (snd (Scenario.run_with Scenario.code Scenario.argv_a
                   Scenario.start)))
  = [lit "language: python" ++ nl ++ lit "algorithm: naive" ++ nl ++
     lit "runtime: 0.250000" ++ nl].
Proof. repeat split. Qed.

(** Scenario B: a correct matcher, status 0, no diagnostic. *)
Example scenario_b :
  fst (Scenario.run_with Scenario.code Scenario.argv_b Scenario.start)
  = Return 0 /\
  printed stderr
    (trace (snd (Scenario.run_with Scenario.code Scenario.argv_b
                   Scenario.start)))
  = [].
Proof. repeat split. Qed.

(** Scenario C: the matcher is off at the first pair, status 1, one line. *)
Example scenario_c :
  fst (Scenario.run_with Scenario.faulty_code Scenario.argv_b Scenario.start)
  = Return 1 /\
  printed stderr
    (trace (snd (Scenario.run_with Scenario.faulty_code Scenario.argv_b
                   Scenario.start)))
  = [lit "Pattern 1 mismatch against sequence 1 (1 != 2)" ++ nl].
Proof. repeat split. Qed.

(** An empty argument list has no program name to quote. *)
Example no_program_name :
  fst (Scenario.run_with Scenario.code [] Scenario.start) = Raise IndexError.
Proof. reflexivity. Qed.

(** Some values of the [.6f] format. *)
Example format_6f_values :
  format_6f (S754_finite false 3 (-1)) = lit "1.500000" /\
  format_6f (S754_finite true 1 (-30)) = lit "-0.000000" /\
  format_6f (S754_finite false 5 (-21)) = lit "0.000002" /\
  format_6f (S754_finite false 1 (-21)) = lit "0.000000" /\
  format_6f (S754_finite false 7 3) = lit "56.000000" /\
  format_6f (S754_finite false 1 (-7)) = lit "0.007812" /\
  format_6f (S754_finite false 3 (-7)) = lit "0.023438" /\
  format_6f (S754_zero false) = lit "0.000000" /\
  format_6f S754_nan = lit "nan".
Proof. repeat split. Qed.

(* ------------------------------------------------------------------ *)
(** ** The properties at the scenarios *)

Lemma run_returns_mismatch_count_witness :
  Scenario.loads_with Scenario.argv_b Scenario.sequences_b
    Scenario.patterns_b (Some Scenario.answers_b) /\
  covers (Some Scenario.answers_b) Scenario.sequences_b /\
  fst (Scenario.run_with Scenario.faulty_code Scenario.argv_b Scenario.start)
  = Return 1.
Proof.
  split; [vm_compute; repeat split |].
  split; [repeat (constructor; [simpl; lia |]); constructor |].
  apply (run_returns_mismatch_count Scenario.read_sequences
           Scenario.read_patterns Scenario.read_answers Scenario.init
           Scenario.faulty_code (lit "naive") Scenario.argv_b
           Scenario.sequences_b Scenario.patterns_b Scenario.answers_b
           Scenario.start).
  - vm_compute; repeat split.
  - repeat (constructor; [simpl; lia |]); constructor.
Defined.

Lemma run_calls_matcher_in_order_witness :
  Scenario.loads_with Scenario.argv_a Scenario.sequences_a
    Scenario.patterns_a None /\
  covers None Scenario.sequences_a /\
  matcher_calls
    (events_of (Scenario.run_with Scenario.code Scenario.argv_a)
       Scenario.start)
  = [Init [97; 98]; Code [97; 98] [97; 98; 97; 98] 2].
Proof.
  split; [vm_compute; repeat split |].
  split; [exact I |].
  apply (run_calls_matcher_in_order Scenario.read_sequences
           Scenario.read_patterns Scenario.read_answers Scenario.init
           Scenario.code (lit "naive") Scenario.argv_a
           Scenario.sequences_a Scenario.patterns_a None Scenario.start).
  - vm_compute; repeat split.
  - exact I.
Defined.

Lemma run_count_mismatch_witness :
  Scenario.read_sequences (lit "seq_b") = inr Scenario.sequences_b /\
  Scenario.read_patterns (lit "pat_b") = inr Scenario.patterns_b /\
  Scenario.read_answers (lit "ans_short") = inr Scenario.answers_short /\
  List.length Scenario.answers_short <> List.length Scenario.patterns_b /\
  Scenario.run_with Scenario.code Scenario.argv_short Scenario.start
  = (Raise (Exception count_mismatch),
     World Scenario.clock 0
       [ReadSequences (lit "seq_b"); ReadPatterns (lit "pat_b");
        ReadAnswers (lit "ans_short")]).
Proof.
  split; [reflexivity |]. split; [reflexivity |]. split; [reflexivity |].
  split; [simpl; lia |].
  apply (run_count_mismatch Scenario.read_sequences Scenario.read_patterns
           Scenario.read_answers Scenario.init Scenario.code (lit "naive")
           (lit "run.py") (lit "seq_b") (lit "pat_b") (lit "ans_short")
           Scenario.sequences_b Scenario.patterns_b Scenario.answers_short
           Scenario.start).
  - reflexivity.
  - reflexivity.
  - reflexivity.
  - simpl; lia.
Defined.

Lemma run_diagnostics_witness :
  Scenario.loads_with Scenario.argv_b Scenario.sequences_b
    Scenario.patterns_b (Some Scenario.answers_b) /\
  covers (Some Scenario.answers_b) Scenario.sequences_b /\
  printed stderr
    (events_of (Scenario.run_with Scenario.faulty_code Scenario.argv_b)
       Scenario.start)
  = [lit "Pattern 1 mismatch against sequence 1 (1 != 2)" ++ nl] /\
  matcher_calls
    (events_of (Scenario.run_with Scenario.faulty_code Scenario.argv_b)
       Scenario.start)
  = expected_calls Scenario.init Scenario.faulty_code Scenario.patterns_b
      Scenario.sequences_b /\
  exists status,
    fst (Scenario.run_with Scenario.faulty_code Scenario.argv_b
           Scenario.start) = Return status.
Proof.
  split; [vm_compute; repeat split |].
  split; [repeat (constructor; [simpl; lia |]); constructor |].
  apply (run_diagnostics Scenario.read_sequences Scenario.read_patterns
           Scenario.read_answers Scenario.init Scenario.faulty_code
           (lit "naive") Scenario.argv_b Scenario.sequences_b
           Scenario.patterns_b Scenario.answers_b Scenario.start).
  - vm_compute; repeat split.
  - repeat (constructor; [simpl; lia |]); constructor.
Defined.

Lemma run_without_answers_witness :
  Scenario.loads_with Scenario.argv_a Scenario.sequences_a
    Scenario.patterns_a None /\
  fst (Scenario.run_with Scenario.code Scenario.argv_a Scenario.start)
  = Return 0.
Proof.
  split; [vm_compute; repeat split |].
  apply (run_without_answers Scenario.read_sequences Scenario.read_patterns
           Scenario.read_answers Scenario.init Scenario.code (lit "naive")
           Scenario.argv_a Scenario.sequences_a Scenario.patterns_a
           Scenario.start).
  vm_compute; repeat split.
Defined.

Lemma run_reports_once_witness :
  Scenario.loads_with Scenario.argv_b Scenario.sequences_b
    Scenario.patterns_b (Some Scenario.answers_b) /\
  covers (Some Scenario.answers_b) Scenario.sequences_b /\
  is_finite (fsub (Scenario.clock 1) (Scenario.clock 0)) = true /\
  exists (before : list (event (list Z))) (runtime : str),
    events_of (Scenario.run_with Scenario.faulty_code Scenario.argv_b)
      Scenario.start
    = before ++
      [PerfCounter (Scenario.clock 1);
       Print stdout
         (lit "language: python" ++ nl ++ lit "algorithm: " ++ lit "naive"
          ++ nl ++ lit "runtime: " ++ runtime ++ nl)] /\
    printed stdout before = [] /\
    printed stdout
      (events_of (Scenario.run_with Scenario.faulty_code Scenario.argv_b)
         Scenario.start)
    = [lit "language: python" ++ nl ++ lit "algorithm: " ++ lit "naive"
       ++ nl ++ lit "runtime: " ++ runtime ++ nl] /\
    runtime = format_6f (fsub (Scenario.clock 1) (Scenario.clock 0)) /\
    six_decimals runtime.
Proof.
  split; [vm_compute; repeat split |].
  split; [repeat (constructor; [simpl; lia |]); constructor |].
  split; [reflexivity |].
  apply (run_reports_once Scenario.read_sequences Scenario.read_patterns
           Scenario.read_answers Scenario.init Scenario.faulty_code
           (lit "naive") Scenario.argv_b Scenario.sequences_b
           Scenario.patterns_b (Some Scenario.answers_b) Scenario.start).
  - vm_compute; repeat split.
  - repeat (constructor; [simpl; lia |]); constructor.
  - reflexivity.
Defined.

Lemma run_short_row_index_error_witness :
  Scenario.loads_with Scenario.argv_ragged Scenario.sequences_b
    Scenario.patterns_b (Some Scenario.answers_ragged) /\
  existsb
    (fun row => (List.length row <? List.length Scenario.sequences_b)%nat)
    Scenario.answers_ragged = true /\
  exists evs,
    Scenario.run_with Scenario.code Scenario.argv_ragged Scenario.start
    = (Raise IndexError,
       World Scenario.clock 1
         ([] ++ loader_events Scenario.argv_ragged ++
          PerfCounter (Scenario.clock 0) :: evs)) /\
    forallb loop_event evs = true.
Proof.
  split; [vm_compute; repeat split |].
  split; [reflexivity |].
  apply (run_short_row_index_error Scenario.read_sequences
           Scenario.read_patterns Scenario.read_answers Scenario.init
           Scenario.code (lit "naive") Scenario.argv_ragged
           Scenario.sequences_b Scenario.patterns_b Scenario.answers_ragged
           Scenario.start).
  - vm_compute; repeat split.
  - reflexivity.
Defined.

(** The corpus of scenario B with a grid whose first row has one cell: both
    checks of the input phase pass, the first clock reading is taken, and
    the run ends in IndexError without anything written to stdout. *)
Lemma run_short_row_no_report :
  Scenario.loads_with Scenario.argv_ragged Scenario.sequences_b
    Scenario.patterns_b (Some Scenario.answers_ragged) /\
  fst (Scenario.run_with Scenario.code Scenario.argv_ragged Scenario.start)
  = Raise IndexError /\
  ticks (snd (Scenario.run_with Scenario.code Scenario.argv_ragged
                Scenario.start)) = 1%nat /\
  printed stdout
    (events_of (Scenario.run_with Scenario.code Scenario.argv_ragged)
       Scenario.start) = [].
Proof.
  split; [vm_compute; repeat split |]. repeat split.
Qed.

(* ------------------------------------------------------------------ *)
(** ** Further facts about [run] *)

Section Further.

Context {E PP : Type}.
Variables read_sequences read_patterns : str -> E + list str.
Variable read_answers : str -> E + list (list Z).
Variable init : list Z -> PP.
Variable code : PP -> list Z -> Z.

Implicit Types (w : world PP) (evs : list (event PP)).

Local Abbreviation run' :=
  (run read_sequences read_patterns read_answers init code).
Local Abbreviation loads' := (loads read_sequences read_patterns read_answers).
Local Abbreviation input_phase' :=
  (input_phase (PP := PP) read_sequences read_patterns read_answers).

Lemma for_each_app {A S} (body : A -> S -> M E PP S) (xs ys : list A) :
  forall s w,
    for_each (xs ++ ys) body s w
    = bind (for_each xs body s) (for_each ys body) w.
Proof.
  induction xs as [| x xs IH]; intros s w; [reflexivity |].
  cbn [app for_each]. unfold bind.
  destruct (body x s w) as [[s1 | e] w1]; [| reflexivity].
  now rewrite IH.
Qed.

Lemma list_prod_nil_r {A B} (l : list A) : list_prod l (@nil B) = [].
Proof. induction l; [reflexivity | assumption]. Qed.

Lemma list_prod_app {A B} (l1 l2 : list A) (l : list B) :
  list_prod (l1 ++ l2) l = list_prod l1 l ++ list_prod l2 l.
Proof.
  induction l1 as [| a l1 IH]; [reflexivity |].
  cbn [app list_prod]. now rewrite IH, app_assoc.
Qed.

Lemma in_pairs (P S : nat) (ps : nat * nat) :
  In ps (pairs P S) -> (fst ps < P)%nat /\ (snd ps < S)%nat.
Proof.
  destruct ps as [p s]. unfold pairs. rewrite in_prod_iff, !in_seq.
  cbn [fst snd]. lia.
Qed.

Lemma loads_rows argv sequences patterns answers :
  loads' argv sequences patterns (Some answers) ->
  List.length answers = List.length patterns.
Proof.
  unfold loads.
  destruct argv as [| ? [| ? [| ? [| ? [| ? ?]]]]]; try contradiction; tauto.
Qed.

(** An input phase that ends with the corpus is one that [loads]
    describes, and its events are the Loader calls. *)
Lemma input_phase_Loaded prog arg1 arg2 rest lev sequences patterns
    answers_data :
  (List.length rest <= 1)%nat ->
  input_phase' arg1 arg2 rest = (lev, Loaded sequences patterns answers_data)
  -> loads' (prog :: arg1 :: arg2 :: rest) sequences patterns answers_data /\
     lev = loader_events (prog :: arg1 :: arg2 :: rest).
Proof.
  intros Hrest. unfold input_phase, loads.
  destruct (read_sequences arg1) as [e | sequences0]; [discriminate |].
  destruct (read_patterns arg2) as [e | patterns0]; [discriminate |].
  destruct rest as [| arg3 [| ? ?]]; [| | cbn [List.length] in Hrest; lia].
  - intros [= <- <- <- <-]. now repeat split.
  - destruct (read_answers arg3) as [e | answers]; [discriminate |].
    destruct (len answers =? len patterns0) eqn:Hlen; [| discriminate].
    cbn [negb]. intros [= <- <- <- <-].
    apply Z.eqb_eq in Hlen. unfold len in Hlen.
    repeat split. lia.
Qed.

Lemma printed_stdout_input_phase arg1 arg2 rest :
  printed stdout (fst (input_phase' arg1 arg2 rest)) = [].
Proof.
  unfold input_phase.
  destruct (read_sequences arg1); [reflexivity |].
  destruct (read_patterns arg2); [reflexivity |].
  destruct rest; reflexivity.
Qed.

(** A run that comes back, in full. *)
Lemma run_returning name argv sequences patterns answers_data w rc :
  loads' argv sequences patterns answers_data ->
  fst (run' name argv w) = Return rc ->
  run' name argv w
  = (Return
       (Z.of_nat (List.length
          (filter (mismatch init code answers_data patterns sequences)
                  (pairs (List.length patterns) (List.length sequences))))),
     World (clock w) (S (S (ticks w)))
       (trace w ++ loader_events argv ++
        PerfCounter (clock w (ticks w)) ::
        flat_map (pattern_events init code answers_data patterns sequences)
                 (seq 0 (List.length patterns)) ++
        [PerfCounter (clock w (S (ticks w)));
         Print stdout
           (report name (fsub (clock w (S (ticks w))) (clock w (ticks w)))
            ++ nl)])).
Proof.
  intros Hloads Hret.
  rewrite (run_loads read_sequences read_patterns read_answers init code
             name argv sequences patterns answers_data w Hloads) in *.
  assert (Hcells : forall p s, (p < List.length patterns)%nat ->
                               (s < List.length sequences)%nat ->
                               has_cell answers_data p s).
  { destruct answers_data as [answers |]; [| intros; exact I].
    destruct (timed_region init code name (Some answers) patterns sequences
                (log w (loader_events argv))) as [o w'] eqn:Htimed.
    cbn [fst] in Hret. subst o.
    exact (timed_region_Return init code name answers patterns sequences
             _ _ _ Htimed). }
  rewrite (timed_region_ok init code name answers_data patterns sequences
             _ Hcells).
  cbn [log clock ticks trace]. now rewrite <- app_assoc.
Qed.

Lemma argv_cases (argv : list str) :
  ~ (3 <= List.length argv <= 4)%nat \/
  exists prog arg1 arg2 rest,
    argv = prog :: arg1 :: arg2 :: rest /\ (List.length rest <= 1)%nat.
Proof.
  destruct argv as [| prog [| arg1 [| arg2 rest]]];
    try (left; cbn [List.length]; lia).
  destruct (le_gt_dec (List.length rest) 1) as [Hrest | Hrest].
  - right. now exists prog, arg1, arg2, rest.
  - left. cbn [List.length]. lia.
Qed.

Lemma run_wrong_count name argv w :
  ~ (3 <= List.length argv <= 4)%nat ->
  run' name argv w
  = (Raise match argv with
           | [] => IndexError
           | prog :: _ => Exception (usage prog)
           end, w).
Proof.
  intros Hcount. destruct argv as [| prog inputs]; [reflexivity |].
  apply run_usage. cbn [List.length] in Hcount. lia.
Qed.

(** A run that comes back has gone through its input phase. *)
Lemma run_Return_loads name argv w rc :
  fst (run' name argv w) = Return rc ->
  exists sequences patterns answers_data,
    loads' argv sequences patterns answers_data.
Proof.
  intros Hret.
  destruct (argv_cases argv) as [Hcount | (prog & arg1 & arg2 & rest & -> & Hrest)].
  - rewrite (run_wrong_count name argv w Hcount) in Hret. discriminate.
  - rewrite run_input_phase in Hret by exact Hrest.
    destruct (input_phase' arg1 arg2 rest)
      as [lev [sequences patterns answers_data | e]] eqn:Hphase;
      [| discriminate].
    exists sequences, patterns, answers_data.
    exact (proj1 (input_phase_Loaded prog arg1 arg2 rest lev sequences
                    patterns answers_data Hrest Hphase)).
Qed.

Lemma printed_stderr_count answers_data patterns sequences ps :
  List.length
    (printed stderr
       (flat_map (pattern_events init code answers_data patterns sequences)
                 ps))
  = List.length
      (filter (mismatch init code answers_data patterns sequences)
              (list_prod ps (seq 0 (List.length sequences)))).
Proof.
  destruct answers_data as [answers |].
  - now rewrite printed_stderr_pattern_events, length_map.
  - unfold mismatch. rewrite filter_none.
    induction ps as [| p ps IH]; [reflexivity |].
    cbn [flat_map]. rewrite printed_app, length_app, IH, Nat.add_0_r.
    unfold pattern_events.
    change (printed stderr (Init ?pat :: ?l))
      with (printed (PP := PP) stderr l).
    induction (seq 0 (List.length sequences)) as [| s ss IHs];
      [reflexivity | exact IHs].
Qed.

(** X1. With 2 or 3 inputs, an exception raised by a Loader call ends the
    run with that exception, after the Loader calls made so far and nothing
    else: the sources after the failing one are not asked for, the clock is
    not read, the matcher is not called. *)
Theorem run_loader_error name prog arg1 arg2 rest w :
  (List.length rest <= 1)%nat ->
  (forall e,
     read_sequences arg1 = inl e ->
     run' name (prog :: arg1 :: arg2 :: rest) w
     = (Raise (LoaderError e),
        World (clock w) (ticks w) (trace w ++ [ReadSequences arg1]))) /\
  (forall e sequences,
     read_sequences arg1 = inr sequences ->
     read_patterns arg2 = inl e ->
     run' name (prog :: arg1 :: arg2 :: rest) w
     = (Raise (LoaderError e),
        World (clock w) (ticks w)
          (trace w ++ [ReadSequences arg1; ReadPatterns arg2]))) /\
  (forall e sequences patterns arg3,
     rest = [arg3] ->
     read_sequences arg1 = inr sequences ->
     read_patterns arg2 = inr patterns ->
     read_answers arg3 = inl e ->
     run' name (prog :: arg1 :: arg2 :: rest) w
     = (Raise (LoaderError e),
        World (clock w) (ticks w)
          (trace w ++
           [ReadSequences arg1; ReadPatterns arg2; ReadAnswers arg3]))).
Proof.
  intros Hrest. rewrite run_input_phase by exact Hrest.
  unfold input_phase. repeat split.
  - intros e ->. reflexivity.
  - intros e sequences -> ->. reflexivity.
  - intros e sequences patterns arg3 -> -> -> ->. reflexivity.
Qed.

(** X2. When [run] returns, the status is the number of lines it has
    written to stderr; the input phase has gone through, and the status
    lies between 0 and the number of (pattern, sequence) pairs. *)
Theorem run_status_counts_diagnostics name argv w rc :
  fst (run' name argv w) = Return rc ->
  rc = Z.of_nat
         (List.length (printed stderr (events_of (run' name argv) w))) /\
  exists sequences patterns answers_data,
    loads' argv sequences patterns answers_data /\
    0 <= rc <= Z.of_nat (List.length patterns * List.length sequences).
Proof.
  intros Hret.
  destruct (run_Return_loads name argv w rc Hret)
    as (sequences & patterns & answers_data & Hloads).
  pose proof (run_returning name argv sequences patterns answers_data w rc
                Hloads Hret) as Hrun.
  rewrite (events_of_app _ _ _ _ _ _ Hrun).
  rewrite Hrun in Hret. cbn [fst] in Hret. injection Hret as <-.
  split.
  - rewrite printed_app, printed_loader_events.
    change (printed stderr (PerfCounter ?t :: ?l))
      with (printed (PP := PP) stderr l).
    rewrite printed_app. cbn [app printed flat_map].
    now rewrite app_nil_r, printed_stderr_count.
  - exists sequences, patterns, answers_data. split; [exact Hloads |].
    split; [lia |].
    apply inj_le.
    etransitivity; [apply filter_length_le |].
    unfold pairs. now rewrite length_prod, !length_seq.
Qed.

(** X7. [run] ends without a single Loader call, clock reading, matcher
    call or line of output exactly when the argument list does not have 3
    or 4 entries; it then leaves the world as it was and raises the usage
    exception quoting the first entry, or IndexError when there is no
    first entry to quote. *)
Theorem run_silent_iff_wrong_count name argv w :
  (events_of (run' name argv) w = []
   <-> ~ (3 <= List.length argv <= 4)%nat) /\
  (~ (3 <= List.length argv <= 4)%nat ->
   run' name argv w
   = (Raise match argv with
            | [] => IndexError
            | prog :: _ => Exception (usage prog)
            end, w)).
Proof.
  split; [| apply run_wrong_count].
  split.
  - intros Hsilent Hcount.
    destruct (argv_cases argv)
      as [Hwrong | (prog & arg1 & arg2 & rest & -> & Hrest)];
      [exact (Hwrong Hcount) |].
    destruct (run_in_range read_sequences read_patterns read_answers init
                code prog arg1 arg2 rest Hrest) as (o & quiet & _ & Hrun).
    destruct (Hrun name w) as (_ & _ & more & Hmore).
    rewrite Hmore in Hsilent. discriminate.
  - intros Hcount.
    exact (events_of_same _ _ _ (run_wrong_count name argv w Hcount)).
Qed.

(** X8. Whatever the arguments, [run] writes to stdout only when it
    returns, and then exactly once: the report with the difference of its
    two clock readings. A run that raises writes nothing to stdout. *)
Theorem run_report_iff_returns name argv w :
  printed stdout (events_of (run' name argv) w)
  = match fst (run' name argv w) with
    | Return _ =>
        [report name (fsub (clock w (S (ticks w))) (clock w (ticks w)))
         ++ nl]
    | Raise _ => []
    end.
Proof.
  destruct (argv_cases argv)
    as [Hcount | (prog & arg1 & arg2 & rest & -> & Hrest)].
  - pose proof (run_wrong_count name argv w Hcount) as Hrun.
    now rewrite (events_of_same _ _ _ Hrun), Hrun.
  - pose proof (run_input_phase read_sequences read_patterns read_answers
                  init code name prog arg1 arg2 rest w Hrest) as Hrun.
    pose proof (printed_stdout_input_phase arg1 arg2 rest) as Hlev.
    destruct (input_phase' arg1 arg2 rest)
      as [lev [sequences patterns answers_data | e]]; cbn [fst] in Hlev.
    + destruct (timed_region_shape (E := E) init code answers_data patterns
                  sequences) as (o & evs & _ & Hevs & Htimed).
      rewrite Htimed in Hrun.
      destruct o as [rc | e];
        cbn [log clock ticks trace] in Hrun; rewrite <- app_assoc in Hrun;
        rewrite (events_of_app _ _ _ _ _ _ Hrun), Hrun; cbn [fst];
        rewrite printed_app, Hlev;
        change (printed stdout (PerfCounter ?t :: ?l))
          with (printed (PP := PP) stdout l).
      * rewrite printed_app, (printed_stdout_loop evs Hevs). reflexivity.
      * exact (printed_stdout_loop evs Hevs).
    + rewrite (events_of_log _ _ _ _ Hrun), Hrun. exact Hlev.
Qed.

Lemma seq_split (n k : nat) :
  (k < n)%nat -> seq 0 n = seq 0 k ++ k :: seq (S k) (n - S k).
Proof.
  intros Hk. replace n with (k + S (n - S k))%nat at 1 by lia.
  now rewrite seq_app.
Qed.

(** A pass through the inner loop body at a pair without a cell: the
    matcher is called, then the lookup fails. *)
Lemma pair_body_missing answers patterns sequences p s rc w :
  (s < List.length sequences)%nat ->
  (p < List.length answers)%nat ->
  (List.length (nth p answers []) <= s)%nat ->
  pair_body (E := E) code (Some answers) (Z.of_nat p)
    (init (encode (nth p patterns []))) (map encode sequences)
    (Z.of_nat s) rc w
  = (Raise IndexError,
     log w [code_event init code patterns sequences p s]).
Proof.
  intros Hs Hp Hrow. unfold pair_body.
  rewrite (bind_Return _ _ _ _ _
             (getitem_nth_default (map encode sequences) s [] w
                ltac:(now rewrite length_map))).
  rewrite nth_encode.
  unfold call_code, emit, bind at 1 2. unfold ret at 1. cbv beta iota.
  rewrite (bind_Return _ _ _ _ _ (getitem_nth_default answers p [] _ Hp)).
  now rewrite (bind_Raise _ _ _ _ _ (getitem_past _ s _ Hrow)).
Qed.

Lemma pattern_body_missing answers patterns sequences p rc w :
  (p < List.length patterns)%nat ->
  (p < List.length answers)%nat ->
  (List.length (nth p answers []) < List.length sequences)%nat ->
  pattern_body (E := E) init code (Some answers) (map encode patterns)
    (map encode sequences) (Z.of_nat p) rc w
  = (Raise IndexError,
     log w
       (Init (encode (nth p patterns [])) ::
        flat_map (pair_events init code (Some answers) patterns sequences p)
                 (seq 0 (List.length (nth p answers []))) ++
        [code_event init code patterns sequences p
           (List.length (nth p answers []))])).
Proof.
  intros Hp Hrows Hshort. unfold pattern_body.
  rewrite (bind_Return _ _ _ _ _
             (getitem_nth_default (map encode patterns) p [] w
                ltac:(now rewrite length_map))).
  rewrite nth_encode.
  unfold call_init, emit, bind at 1 2. unfold ret at 1. cbv beta iota.
  rewrite range_len, length_map.
  rewrite (seq_split _ _ Hshort), map_app, for_each_app.
  rewrite (bind_Return _ _ _ _ _
             (inner_loop_ok init code (Some answers) patterns sequences p
                (seq 0 (List.length (nth p answers []))) rc _
                ltac:(apply Forall_forall; intros s Hin;
                      apply in_seq in Hin; cbn [has_cell]; lia))).
  cbn [map for_each].
  rewrite (bind_Raise _ _ _ _ _
             (pair_body_missing answers patterns sequences p _ _ _
                Hshort Hrows (Nat.le_refl _))).
  rewrite !log_log. reflexivity.
Qed.

(** X3. With a grid of the right row count in which row [p] is the first
    that is shorter than the number of sequences, [run] raises IndexError
    having done exactly this, in order: the Loader calls, one clock
    reading, the complete passes for the patterns before [p] with their
    diagnostics, the [Init] for pattern [p], the pairs of pattern [p] that
    have a cell with their diagnostics, and the matcher call for the first
    pair without a cell. *)
Theorem run_aborts_at_first_missing_cell name argv sequences patterns
    answers p w :
  loads' argv sequences patterns (Some answers) ->
  (p < List.length patterns)%nat ->
  Forall (fun row => (List.length sequences <= List.length row)%nat)
         (firstn p answers) ->
  (List.length (nth p answers []) < List.length sequences)%nat ->
  run' name argv w
  = (Raise IndexError,
     World (clock w) (S (ticks w))
       (trace w ++ loader_events argv ++
        PerfCounter (clock w (ticks w)) ::
        flat_map (pattern_events init code (Some answers) patterns sequences)
                 (seq 0 p) ++
        Init (encode (nth p patterns [])) ::
        flat_map (pair_events init code (Some answers) patterns sequences p)
                 (seq 0 (List.length (nth p answers []))) ++
        [code_event init code patterns sequences p
           (List.length (nth p answers []))])).
Proof.
  intros Hloads Hp Hbefore Hshort.
  pose proof (loads_rows argv sequences patterns answers Hloads) as Hrows.
  rewrite (run_loads read_sequences read_patterns read_answers init code
             name argv sequences patterns (Some answers) w Hloads).
  unfold timed_region. unfold bind at 1. cbn [perf_counter].
  rewrite len_map, range_len. unfold bind at 1.
  rewrite (seq_split _ _ Hp), map_app, for_each_app.
  assert (Hall : Forall
            (fun q => (q < List.length patterns)%nat /\
                      forall s, (s < List.length sequences)%nat ->
                                has_cell (Some answers) q s)
            (seq 0 p)).
  { apply Forall_forall. intros q Hin. apply in_seq in Hin.
    split; [lia |]. intros s Hs. cbn [has_cell]. split; [lia |].
    rewrite Forall_forall in Hbefore.
    assert (Hq : In (nth q answers []) (firstn p answers)).
    { replace (nth q answers []) with (nth q (firstn p answers) []).
      - apply nth_In. rewrite length_firstn. lia.
      - rewrite nth_firstn.
        now destruct (Nat.ltb_spec q p); [| lia]. }
    specialize (Hbefore _ Hq). lia. }
  rewrite (bind_Return _ _ _ _ _
             (outer_loop_ok init code (Some answers) patterns sequences
                (seq 0 p) 0 _ Hall)).
  cbn [map for_each].
  rewrite (bind_Raise _ _ _ _ _
             (pattern_body_missing answers patterns sequences p _ _ Hp
                ltac:(lia) Hshort)).
  unfold log. cbn [clock ticks trace]. rewrite <- !app_assoc. reflexivity.
Qed.

Lemma map_nth_seq {A B} (f : A -> B) (d : A) (l : list A) : forall k,
  map (fun q => f (nth (q - k) l d)) (seq k (List.length l)) = map f l.
Proof.
  induction l as [| a l IH]; intros k; [reflexivity |].
  cbn [List.length seq map]. rewrite Nat.sub_diag. f_equal.
  rewrite <- (IH (S k)). apply map_ext_in. intros q Hin.
  apply in_seq in Hin.
  replace (q - k)%nat with (S (q - S k)) by lia. reflexivity.
Qed.

Lemma flat_map_single {A B} (g : A -> B) (l : list A) :
  flat_map (fun a => [g a]) l = map g l.
Proof. induction l as [| a l IH]; [reflexivity | cbn; now rewrite IH]. Qed.

(** X4. When the input phase goes through and the corpus has no patterns
    or no sequences, [run] returns 0 and prints no diagnostic, whatever the
    rows of the answer grid hold; the matcher is still initialised once
    for every pattern, in order, and never asked for a count. *)
Theorem run_empty_corpus name argv sequences patterns answers_data w :
  loads' argv sequences patterns answers_data ->
  patterns = [] \/ sequences = [] ->
  fst (run' name argv w) = Return 0 /\
  matcher_calls (events_of (run' name argv) w)
  = map (fun pat => Init (encode pat)) patterns /\
  printed stderr (events_of (run' name argv) w) = [].
Proof.
  intros Hloads Hempty.
  assert (Hcov : covers answers_data sequences).
  { destruct answers_data as [answers |]; [| exact I]. cbn [covers].
    destruct Hempty as [-> | ->].
    - pose proof (loads_rows _ _ _ _ Hloads) as Hrows.
      destruct answers; [constructor | discriminate].
    - apply Forall_forall. intros row _. cbn [List.length]. lia. }
  assert (Hnone : pairs (List.length patterns) (List.length sequences) = []).
  { unfold pairs. destruct Hempty as [-> | ->]; [reflexivity |].
    apply list_prod_nil_r. }
  pose proof (run_valid read_sequences read_patterns read_answers init code
                name argv sequences patterns answers_data w Hloads Hcov)
    as Hrun.
  rewrite (events_of_app _ _ _ _ _ _ Hrun), Hrun, Hnone.
  split; [reflexivity |]. split.
  - rewrite matcher_calls_app, matcher_calls_loader_events.
    change (matcher_calls (PerfCounter ?t :: ?l))
      with (matcher_calls (PP := PP) l).
    rewrite matcher_calls_app, matcher_calls_pattern_events.
    cbn [app matcher_calls filter is_matcher_call]. rewrite app_nil_r.
    destruct Hempty as [-> | ->]; [reflexivity |].
    cbn [List.length seq map]. rewrite flat_map_single.
    rewrite <- (map_nth_seq (fun pat => Init (encode pat)) [] patterns 0).
    apply map_ext. intros q. now rewrite Nat.sub_0_r.
  - rewrite printed_app, printed_loader_events.
    change (printed stderr (PerfCounter ?t :: ?l))
      with (printed (PP := PP) stderr l).
    rewrite printed_app. cbn [app printed flat_map]. rewrite app_nil_r.
    apply length_zero_iff_nil.
    rewrite printed_stderr_count. fold (pairs (List.length patterns)
                                          (List.length sequences)).
    now rewrite Hnone.
Qed.

(** X5. Only the cells of the grid that belong to a (pattern, sequence)
    pair are looked at: two runs on the same corpus, with grids that agree
    on those cells and differ elsewhere (in cells past the last sequence),
    return the same status and print the same diagnostics. *)
Theorem run_ignores_surplus_cells name1 name2 argv1 argv2 sequences patterns
    answers1 answers2 w1 w2 :
  loads' argv1 sequences patterns (Some answers1) ->
  loads' argv2 sequences patterns (Some answers2) ->
  covers (Some answers1) sequences ->
  covers (Some answers2) sequences ->
  (forall p s, (p < List.length patterns)%nat ->
               (s < List.length sequences)%nat ->
               answer answers1 p s = answer answers2 p s) ->
  fst (run' name1 argv1 w1) = fst (run' name2 argv2 w2) /\
  printed stderr (events_of (run' name1 argv1) w1)
  = printed stderr (events_of (run' name2 argv2) w2).
Proof.
  intros Hloads1 Hloads2 Hcov1 Hcov2 Hagree.
  pose proof (run_valid read_sequences read_patterns read_answers init code
                name1 argv1 sequences patterns (Some answers1) w1
                Hloads1 Hcov1) as Hrun1.
  pose proof (run_valid read_sequences read_patterns read_answers init code
                name2 argv2 sequences patterns (Some answers2) w2
                Hloads2 Hcov2) as Hrun2.
  assert (Hfilter :
            filter (mismatch init code (Some answers1) patterns sequences)
                   (pairs (List.length patterns) (List.length sequences))
            = filter (mismatch init code (Some answers2) patterns sequences)
                     (pairs (List.length patterns) (List.length sequences))).
  { apply filter_ext_in. intros ps Hin. apply in_pairs in Hin.
    unfold mismatch. now rewrite (Hagree _ _ (proj1 Hin) (proj2 Hin)). }
  rewrite (events_of_app _ _ _ _ _ _ Hrun1), Hrun1.
  rewrite (events_of_app _ _ _ _ _ _ Hrun2), Hrun2.
  cbn [fst]. rewrite Hfilter. split; [reflexivity |].
  rewrite !printed_app, !printed_loader_events.
  change (printed stderr (PerfCounter ?t :: ?l))
    with (printed (PP := PP) stderr l).
  rewrite !printed_app, !printed_stderr_pattern_events.
  fold (pairs (List.length patterns) (List.length sequences)).
  rewrite Hfilter. cbn [app printed flat_map]. f_equal.
  apply map_ext_in. intros ps Hin.
  apply filter_In in Hin. destruct Hin as [Hin _]. apply in_pairs in Hin.
  unfold diagnostic_of. now rewrite (Hagree _ _ (proj1 Hin) (proj2 Hin)).
Qed.

Lemma count_pairs_shift (f : nat * nat -> bool) (ss : list nat) (n : nat) :
  forall k,
    List.length (filter f (list_prod (seq k n) ss))
    = List.length
        (filter (fun ps => f ((k + fst ps)%nat, snd ps))
                (list_prod (seq 0 n) ss)).
Proof.
  induction n as [| n IH]; intros k; [reflexivity |].
  cbn [seq list_prod]. rewrite !filter_app, !length_app.
  rewrite !length_filter_pairs. cbn [fst snd]. rewrite Nat.add_0_r.
  f_equal. rewrite (IH (S k)).
  rewrite <- seq_shift.
  assert (Hmap : forall (l : list nat),
            list_prod (map S l) ss
            = map (fun ps => (S (fst ps), snd ps)) (list_prod l ss)).
  { induction l as [| a l IHl]; [reflexivity |].
    cbn [map list_prod]. rewrite map_app, IHl, map_map. reflexivity. }
  rewrite Hmap.
  assert (Hcount : forall (g : nat * nat -> bool) (h : nat * nat -> nat * nat)
                          (l : list (nat * nat)),
            List.length (filter g (map h l))
            = List.length (filter (fun ps => g (h ps)) l)).
  { intros g h l. induction l as [| a l IHl]; [reflexivity |].
    cbn [map filter]. destruct (g (h a)); cbn [List.length]; now rewrite IHl. }
  rewrite Hcount. cbn [fst snd]. f_equal. apply filter_ext. intros ps.
  now rewrite Nat.add_succ_r.
Qed.

(** X6. The status adds up over patterns: when the patterns and the rows
    of the grid are split in two, the status of the run on the whole is
    the sum of the statuses of the runs on the two parts, each against the
    same sequences. *)
Theorem run_status_additive name name1 name2 argv argv1 argv2 sequences
    patterns1 patterns2 answers1 answers2 w w1 w2 :
  loads' argv1 sequences patterns1 (Some answers1) ->
  loads' argv2 sequences patterns2 (Some answers2) ->
  loads' argv sequences (patterns1 ++ patterns2)
    (Some (answers1 ++ answers2)) ->
  covers (Some answers1) sequences ->
  covers (Some answers2) sequences ->
  exists rc1 rc2,
    fst (run' name1 argv1 w1) = Return rc1 /\
    fst (run' name2 argv2 w2) = Return rc2 /\
    fst (run' name argv w) = Return (rc1 + rc2).
Proof.
  intros Hloads1 Hloads2 Hloads Hcov1 Hcov2.
  pose proof (loads_rows _ _ _ _ Hloads1) as Hrows1.
  assert (Hcov : covers (Some (answers1 ++ answers2)) sequences).
  { cbn [covers] in *. now apply Forall_app. }
  rewrite (run_valid read_sequences read_patterns read_answers init code
             name1 argv1 sequences patterns1 (Some answers1) w1
             Hloads1 Hcov1).
  rewrite (run_valid read_sequences read_patterns read_answers init code
             name2 argv2 sequences patterns2 (Some answers2) w2
             Hloads2 Hcov2).
  rewrite (run_valid read_sequences read_patterns read_answers init code
             name argv sequences (patterns1 ++ patterns2)
             (Some (answers1 ++ answers2)) w Hloads Hcov).
  do 2 eexists. split; [reflexivity |]. split; [reflexivity |].
  cbn [fst]. f_equal. rewrite <- Nat2Z.inj_add. f_equal.
  unfold pairs. rewrite length_app, seq_app, list_prod_app.
  rewrite filter_app, length_app. f_equal.
  - f_equal. apply filter_ext_in. intros [p s] Hin.
    apply in_prod_iff in Hin. destruct Hin as [Hp _]. apply in_seq in Hp.
    unfold mismatch, match_count, answer. cbn [fst snd].
    rewrite !app_nth1 by lia. reflexivity.
  - cbn [Nat.add]. rewrite count_pairs_shift. f_equal.
    apply filter_ext. intros [p s].
    unfold mismatch, match_count, answer. cbn [fst snd].
    rewrite app_nth2_plus. rewrite <- Hrows1 at 1.
    now rewrite app_nth2_plus.
Qed.

End Further.

(* ------------------------------------------------------------------ *)
(** ** The further facts at sample corpora *)

Lemma run_loader_error_witness :
  (List.length [lit "ans_b"] <= 1)%nat /\
  Scenario.run_with Scenario.code
    (Scenario.argv ["run.py"; "nope"; "pat_b"; "ans_b"]%string)
    Scenario.start
  = (Raise (LoaderError (Scenario.NoSuchFile (lit "nope"))),
     World Scenario.clock 0 [ReadSequences (lit "nope")]).
Proof.
  split; [simpl; lia |].
  apply (proj1 (run_loader_error Scenario.read_sequences
                  Scenario.read_patterns Scenario.read_answers Scenario.init
                  Scenario.code (lit "naive") (lit "run.py") (lit "nope")
                  (lit "pat_b") [lit "ans_b"] Scenario.start
                  ltac:(simpl; lia))).
  reflexivity.
Defined.

Lemma run_status_counts_diagnostics_witness :
  fst (Scenario.run_with Scenario.faulty_code Scenario.argv_b Scenario.start)
  = Return 1 /\
  (1 = Z.of_nat
         (List.length
            (printed stderr
               (events_of
                  (Scenario.run_with Scenario.faulty_code Scenario.argv_b)
                  Scenario.start))) /\
   exists sequences patterns answers_data,
     Scenario.loads_with Scenario.argv_b sequences patterns answers_data /\
     0 <= 1 <= Z.of_nat (List.length patterns * List.length sequences)).
Proof.
  split; [reflexivity |].
  apply (run_status_counts_diagnostics Scenario.read_sequences
           Scenario.read_patterns Scenario.read_answers Scenario.init
           Scenario.faulty_code (lit "naive") Scenario.argv_b Scenario.start
           1).
  reflexivity.
Defined.

Lemma run_aborts_at_first_missing_cell_witness :
  Corpora.loads_with ["run.py"; "seq_b"; "pat_b"; "ans_late"]%string
    [lit "aa"; lit "bb"] [lit "a"; lit "b"] (Some [[2; 0]; [0]]) /\
  (1 < List.length [lit "a"; lit "b"])%nat /\
  Forall (fun row => (List.length [lit "aa"; lit "bb"]
                      <= List.length row)%nat)
         (firstn 1 [[2; 0]; [0]]) /\
  (List.length (nth 1 [[2; 0]; [0]] []) < List.length [lit "aa"; lit "bb"])%nat
  /\
  Corpora.run_with Scenario.faulty_code
    ["run.py"; "seq_b"; "pat_b"; "ans_late"]%string Scenario.start
  = (Raise IndexError,
     World Scenario.clock 1
       [ReadSequences (lit "seq_b"); ReadPatterns (lit "pat_b");
        ReadAnswers (lit "ans_late");
        PerfCounter (Scenario.clock 0);
        Init [97]; Code [97] [97; 97] 1;
        Print stderr
          (lit "Pattern 1 mismatch against sequence 1 (1 != 2)" ++ nl);
        Code [97] [98; 98] 0;
        Init [98]; Code [98] [97; 97] 0; Code [98] [98; 98] 2]).
Proof.
  split; [vm_compute; repeat split |].
  split; [simpl; lia |].
  split; [repeat (constructor; [simpl; lia |]); constructor |].
  split; [simpl; lia |].
  apply (run_aborts_at_first_missing_cell Corpora.read_sequences
           Corpora.read_patterns Corpora.read_answers Scenario.init
           Scenario.faulty_code (lit "naive")
           (Scenario.argv ["run.py"; "seq_b"; "pat_b"; "ans_late"]%string)
           [lit "aa"; lit "bb"] [lit "a"; lit "b"] [[2; 0]; [0]] 1%nat
           Scenario.start).
  - vm_compute; repeat split.
  - simpl; lia.
  - repeat (constructor; [simpl; lia |]); constructor.
  - simpl; lia.
Defined.

Lemma run_empty_corpus_witness :
  Corpora.loads_with ["run.py"; "seq_none"; "pat_b"; "ans_any"]%string
    [] [lit "a"; lit "b"] (Some [[5]; []]) /\
  ([lit "a"; lit "b"] = [] \/ @nil str = []) /\
  fst (Corpora.run_with Scenario.code
         ["run.py"; "seq_none"; "pat_b"; "ans_any"]%string Scenario.start)
  = Return 0 /\
  matcher_calls
    (events_of
       (Corpora.run_with Scenario.code
          ["run.py"; "seq_none"; "pat_b"; "ans_any"]%string)
       Scenario.start)
  = [Init [97]; Init [98]] /\
  printed stderr
    (events_of
       (Corpora.run_with Scenario.code
          ["run.py"; "seq_none"; "pat_b"; "ans_any"]%string)
       Scenario.start)
  = [].
Proof.
  split; [vm_compute; repeat split |].
  split; [right; reflexivity |].
  apply (run_empty_corpus Corpora.read_sequences Corpora.read_patterns
           Corpora.read_answers Scenario.init Scenario.code (lit "naive")
           (Scenario.argv ["run.py"; "seq_none"; "pat_b"; "ans_any"]%string)
           [] [lit "a"; lit "b"] (Some [[5]; []]) Scenario.start).
  - vm_compute; repeat split.
  - right; reflexivity.
Defined.

Lemma run_ignores_surplus_cells_witness :
  Corpora.loads_with ["run.py"; "seq_b"; "pat_b"; "ans_b"]%string
    [lit "aa"; lit "bb"] [lit "a"; lit "b"] (Some [[2; 0]; [0; 2]]) /\
  Corpora.loads_with ["run.py"; "seq_b"; "pat_b"; "ans_wide"]%string
    [lit "aa"; lit "bb"] [lit "a"; lit "b"]
    (Some [[2; 0; 7]; [0; 2; 9; 9]]) /\
  covers (Some [[2; 0]; [0; 2]]) [lit "aa"; lit "bb"] /\
  covers (Some [[2; 0; 7]; [0; 2; 9; 9]]) [lit "aa"; lit "bb"] /\
  (forall p s, (p < 2)%nat -> (s < 2)%nat ->
               answer [[2; 0]; [0; 2]] p s
               = answer [[2; 0; 7]; [0; 2; 9; 9]] p s) /\
  fst (Corpora.run_with Scenario.faulty_code
         ["run.py"; "seq_b"; "pat_b"; "ans_b"]%string Scenario.start)
  = fst (Corpora.run_with Scenario.faulty_code
           ["run.py"; "seq_b"; "pat_b"; "ans_wide"]%string Scenario.start)
  /\
  printed stderr
    (events_of
       (Corpora.run_with Scenario.faulty_code
          ["run.py"; "seq_b"; "pat_b"; "ans_b"]%string) Scenario.start)
  = printed stderr
      (events_of
         (Corpora.run_with Scenario.faulty_code
            ["run.py"; "seq_b"; "pat_b"; "ans_wide"]%string) Scenario.start).
Proof.
  assert (Hagree : forall p s, (p < 2)%nat -> (s < 2)%nat ->
                     answer [[2; 0]; [0; 2]] p s
                     = answer [[2; 0; 7]; [0; 2; 9; 9]] p s).
  { intros [| [| p]] [| [| s]] Hp Hs; try reflexivity; lia. }
  split; [vm_compute; repeat split |].
  split; [vm_compute; repeat split |].
  split; [repeat (constructor; [simpl; lia |]); constructor |].
  split; [repeat (constructor; [simpl; lia |]); constructor |].
  split; [exact Hagree |].
  apply (run_ignores_surplus_cells Corpora.read_sequences
           Corpora.read_patterns Corpora.read_answers Scenario.init
           Scenario.faulty_code (lit "naive") (lit "naive")
           (Scenario.argv ["run.py"; "seq_b"; "pat_b"; "ans_b"]%string)
           (Scenario.argv ["run.py"; "seq_b"; "pat_b"; "ans_wide"]%string)
           [lit "aa"; lit "bb"] [lit "a"; lit "b"]
           [[2; 0]; [0; 2]] [[2; 0; 7]; [0; 2; 9; 9]]
           Scenario.start Scenario.start).
  - vm_compute; repeat split.
  - vm_compute; repeat split.
  - repeat (constructor; [simpl; lia |]); constructor.
  - repeat (constructor; [simpl; lia |]); constructor.
  - exact Hagree.
Defined.

Lemma run_status_additive_witness :
  Corpora.loads_with ["run.py"; "seq_b"; "pat_first"; "ans_first"]%string
    [lit "aa"; lit "bb"] [lit "a"] (Some [[2; 0]]) /\
  Corpora.loads_with ["run.py"; "seq_b"; "pat_second"; "ans_second"]%string
    [lit "aa"; lit "bb"] [lit "b"] (Some [[0; 2]]) /\
  Corpora.loads_with ["run.py"; "seq_b"; "pat_b"; "ans_b"]%string
    [lit "aa"; lit "bb"] ([lit "a"] ++ [lit "b"])
    (Some ([[2; 0]] ++ [[0; 2]])) /\
  covers (Some [[2; 0]]) [lit "aa"; lit "bb"] /\
  covers (Some [[0; 2]]) [lit "aa"; lit "bb"] /\
  exists rc1 rc2,
    fst (Corpora.run_with Scenario.faulty_code
           ["run.py"; "seq_b"; "pat_first"; "ans_first"]%string
           Scenario.start) = Return rc1 /\
    fst (Corpora.run_with Scenario.faulty_code
           ["run.py"; "seq_b"; "pat_second"; "ans_second"]%string
           Scenario.start) = Return rc2 /\
    fst (Corpora.run_with Scenario.faulty_code
           ["run.py"; "seq_b"; "pat_b"; "ans_b"]%string
           Scenario.start) = Return (rc1 + rc2).
Proof.
  split; [vm_compute; repeat split |].
  split; [vm_compute; repeat split |].
  split; [vm_compute; repeat split |].
  split; [repeat (constructor; [simpl; lia |]); constructor |].
  split; [repeat (constructor; [simpl; lia |]); constructor |].
  apply (run_status_additive Corpora.read_sequences Corpora.read_patterns
           Corpora.read_answers Scenario.init Scenario.faulty_code
           (lit "naive") (lit "naive") (lit "naive")
           (Scenario.argv ["run.py"; "seq_b"; "pat_b"; "ans_b"]%string)
           (Scenario.argv
              ["run.py"; "seq_b"; "pat_first"; "ans_first"]%string)
           (Scenario.argv
              ["run.py"; "seq_b"; "pat_second"; "ans_second"]%string)
           [lit "aa"; lit "bb"] [lit "a"] [lit "b"] [[2; 0]] [[0; 2]]
           Scenario.start Scenario.start Scenario.start).
  - vm_compute; repeat split.
  - vm_compute; repeat split.
  - vm_compute; repeat split.
  - repeat (constructor; [simpl; lia |]); constructor.
  - repeat (constructor; [simpl; lia |]); constructor.
Defined.
